(** * create-mock-bun: the recorder and the recursive stand-in of [src/index.ts]

    The development embeds the run-time part of [src/index.ts]:
    [createBaseMock] (the callable recorder), [createMock] with its proxy
    handler (the lazily generated stand-in), [isMock], [getCallInfo] and
    [createMockWithDefaults].

    Modelling choices.
    - JavaScript values are the inductive [Value]. Plain data (arrays,
      object literals) is held by value; the objects the library allocates
      (a base mock with the proxy around it) live in a heap and are named by
      their address, so that reference identity of stand-ins is equality of
      addresses.
    - The function object [fn] of [createBaseMock] is the record [Node]: its
      property table ([props]) and the variables its closures capture
      ([impl], [onceQueue], [defaultImpl], and the [depth] the handler of
      [createMock] captures).
    - Functions written by a test are named by an index into a table [ftab]
      of bodies; a body is a [Prog], a tree of calls, member reads and member
      writes that ends by returning or throwing.
    - A result is [None] when the model has no answer: the fuel ran out, an
      address is not allocated, the bookkeeping object does not have its
      declared shape, or the member is one that every function object has
      from the language itself ([language_member]).
    - The engine's check of what the [ownKeys] trap returns is modelled
      ([proxy_ownKeys]): the target is a function expression, whose own
      [prototype] property is not configurable.
    - Not modelled: the [this] of a call (no function here looks at it),
      accessor properties, the identity of plain arrays and object literals
      (a read of a log is a snapshot), the checks an engine runs on the
      results of the other traps, and the jobs a promise runs after the
      current call ([Promise.resolve] of a value with a callable [then] has
      no answer). *)

From Stdlib Require Import ZArith String List Lia.
From stdpp Require Import base option list strings sorting.

Set Warnings "-register-all".

(** ** Values *)

Abbreviation loc := nat.

(** The ten configuration methods [createBaseMock] attaches to [fn]
    (index.ts 50-78). *)
Inductive Method :=
| MImplementation | MImplementationOnce
| MReturnValue | MReturnValueOnce
| MResolvedValue | MResolvedValueOnce
| MRejectedValue | MRejectedValueOnce
| MClear | MReset.

Inductive Value :=
| VUndef
| VNull
| VBool (b : bool)
| VNum (n : Z)
| VStr (s : string)
| VArr (xs : list Value)
| VObj (fields : list (string * Value))
| VPromise (fulfilled : bool) (v : Value)
| VTypeError (msg : string)
(* a function written by the test: body [ftab id], own members [own] *)
| VFun (id : nat) (own : list (string * Value))
(* the closures of index.ts 60-65 and 193 *)
| VConst (v : Value)                     (* () => v *)
| VResolve (v : Value)                   (* () => Promise.resolve(v) *)
| VReject (e : Value)                    (* () => Promise.reject(e) *)
| VNested (depth : Z)                    (* () => createMock(depth + 1) *)
(* what createBaseMock and createMock allocate *)
| VMethod (a : loc) (m : Method)         (* fn.mockImplementation, ... *)
| VBase (a : loc)                        (* fn itself, the proxy's target *)
| VMock (a : loc).                       (* new Proxy(baseMock, handler) *)

(** Member names: [string | symbol] (index.ts 128). *)
Inductive PropKey :=
| PStr (s : string)
| PSym (s : string).

#[global] Instance PropKey_eq_dec : EqDecision PropKey.
Proof. solve_decision. Defined.

(** [typeof v] *)
Definition typeof (v : Value) : string :=
  match v with
  | VUndef => "undefined"
  | VNull => "object"
  | VBool _ => "boolean"
  | VNum _ => "number"
  | VStr _ => "string"
  | VArr _ | VObj _ | VPromise _ _ | VTypeError _ => "object"
  | VFun _ _ | VConst _ | VResolve _ | VReject _ | VNested _
  | VMethod _ _ | VBase _ | VMock _ => "function"
  end.

Definition is_function (v : Value) : bool :=
  match v with
  | VFun _ _ | VConst _ | VResolve _ | VReject _ | VNested _
  | VMethod _ _ | VBase _ | VMock _ => true
  | _ => false
  end.

Definition is_object (v : Value) : bool :=
  match v with
  | VNull | VArr _ | VObj _ | VPromise _ _ | VTypeError _ => true
  | _ => false
  end.

(** [Array.isArray v] *)
Definition is_array (v : Value) : bool :=
  match v with VArr _ => true | _ => false end.

(** [v !== undefined] is [negb (is_undefined v)] *)
Definition is_undefined (v : Value) : bool :=
  match v with VUndef => true | _ => false end.

(** what [??] tests on its left operand *)
Definition is_nullish (v : Value) : bool :=
  match v with VUndef | VNull => true | _ => false end.

(** what [? :] and [||] test *)
Definition truthy (v : Value) : bool :=
  match v with
  | VUndef | VNull => false
  | VBool b => b
  | VNum n => negb (n =? 0)%Z
  | VStr s => negb (String.eqb s "")
  | _ => true
  end.

(** ** Properties in insertion order

    The properties of an object, as JavaScript keeps them: an assignment to
    a property that exists changes it in place, an assignment to a new one
    appends it. *)
Section Assoc.
Context {K V : Type} `{EqDecision K}.

Fixpoint assoc_get (l : list (K * V)) (k : K) : option V :=
  match l with
  | [] => None
  | (k', v) :: l' => if decide (k' = k) then Some v else assoc_get l' k
  end.

Fixpoint assoc_set (l : list (K * V)) (k : K) (v : V) : list (K * V) :=
  match l with
  | [] => [(k, v)]
  | (k', v') :: l' =>
      if decide (k' = k) then (k', v) :: l' else (k', v') :: assoc_set l' k v
  end.

End Assoc.

(** Fields of an object literal. *)
Definition obj_get (fs : list (string * Value)) (k : string) : Value :=
  default VUndef (assoc_get fs k).

Definition obj_set (fs : list (string * Value)) (k : string) (v : Value)
  : list (string * Value) :=
  assoc_set fs k v.

(** Members that a function object has without this library writing them:
    its own [length], [name] and [prototype], and what it inherits from
    [Function.prototype] and [Object.prototype]. They are not modelled: a
    read or write of one of them has no answer here. *)
Definition language_member_names : list string :=
  [ "length"; "name"; "prototype"; "arguments"; "caller";
    "apply"; "bind"; "call"; "constructor"; "toString";
    "hasOwnProperty"; "isPrototypeOf"; "propertyIsEnumerable";
    "toLocaleString"; "valueOf"; "__proto__";
    "__defineGetter__"; "__defineSetter__";
    "__lookupGetter__"; "__lookupSetter__" ].

Definition language_member (p : PropKey) : bool :=
  match p with
  | PStr s => existsb (String.eqb s) language_member_names
  | PSym s => String.eqb s "Symbol.hasInstance"
  end.

(** ** The recorder's function object *)

Record Node := mkNode {
  props : list (PropKey * Value); (* the properties of [fn] *)
  impl : Value;                   (* let impl (index.ts 30) *)
  onceQueue : list Value;         (* const onceQueue (index.ts 31) *)
  defaultImpl : Value;            (* the parameter of createBaseMock *)
  depth : Z                       (* the parameter of createMock *)
}.

Abbreviation Heap := (list Node).

Definition set_props (f : list (PropKey * Value) -> list (PropKey * Value)) (nd : Node) : Node :=
  mkNode (f (props nd)) (impl nd) (onceQueue nd) (defaultImpl nd) (depth nd).

Definition set_impl (f : Value) (nd : Node) : Node :=
  mkNode (props nd) f (onceQueue nd) (defaultImpl nd) (depth nd).

Definition set_onceQueue (q : list Value) (nd : Node) : Node :=
  mkNode (props nd) (impl nd) q (defaultImpl nd) (depth nd).

(** [target[prop]] read on the function object. *)
Definition target_get (nd : Node) (p : PropKey) : option Value :=
  if language_member p then None else Some (default VUndef (assoc_get (props nd) p)).

(** [target[prop] = value] *)
Definition target_set (nd : Node) (p : PropKey) (v : Value) : option Node :=
  if language_member p then None else Some (set_props (fun ps => assoc_set ps p v) nd).

(** [{ calls: [], results: [] }] (index.ts 48) *)
Definition empty_log : Value :=
  VObj [("calls", VArr []); ("results", VArr [])].

(** index.ts 48-78: the properties assigned to [fn], in the order of the
    assignments. *)
Definition surface (a : loc) : list (string * Value) :=
  [ ("mock", empty_log);
    ("mockImplementation", VMethod a MImplementation);
    ("mockImplementationOnce", VMethod a MImplementationOnce);
    ("mockReturnValue", VMethod a MReturnValue);
    ("mockReturnValueOnce", VMethod a MReturnValueOnce);
    ("mockResolvedValue", VMethod a MResolvedValue);
    ("mockResolvedValueOnce", VMethod a MResolvedValueOnce);
    ("mockRejectedValue", VMethod a MRejectedValue);
    ("mockRejectedValueOnce", VMethod a MRejectedValueOnce);
    ("mockClear", VMethod a MClear);
    ("mockReset", VMethod a MReset) ].

Definition surface_names : list string := (surface 0%nat).*1.

(** [createBaseMock(defaultImpl)] placed at address [a]; [d] is the depth
    the enclosing [createMock] was called with. *)
Definition createBaseMock (a : loc) (dflt : Value) (d : Z) : Node :=
  mkNode (prod_map PStr id <$> surface a) dflt [] dflt d.

(** ** createMock and its proxy handler *)

Definition MAX_DEPTH : Z := 10%Z.

(** index.ts 119-197. Nothing is generated eagerly: the children appear
    when the handler's [get] or the default implementation runs. *)
Definition createMock (d : Z) (h : Heap) : Value * Heap :=
  if (MAX_DEPTH <? d)%Z then (VUndef, h)
  else (VMock (length h), h ++ [createBaseMock (length h) (VNested d) d]).

(** The names the [get] trap hands to the target (index.ts 130-143). *)
Definition passthrough_names : list string :=
  [ "mock"; "mockImplementation"; "mockImplementationOnce";
    "mockResolvedValue"; "mockResolvedValueOnce";
    "mockRejectedValue"; "mockRejectedValueOnce";
    "mockReturnValue"; "mockReturnValueOnce";
    "mockClear"; "mockReset"; "mockRestore" ].

Definition passthrough (p : PropKey) : bool :=
  match p with
  | PStr s => existsb (String.eqb s) passthrough_names
  | PSym _ => false
  end.

Definition is_symbol (p : PropKey) : bool :=
  match p with PSym _ => true | PStr _ => false end.

(** handler.get (index.ts 128-161) of the proxy at address [a]. *)
Definition handler_get (a : loc) (p : PropKey) (h : Heap) : option (Value * Heap) :=
  nd ← h !! a;
  cur ← target_get nd p;
  if passthrough p then Some (cur, h)
  else if is_symbol p then Some (cur, h)
  else if negb (is_undefined cur) then Some (cur, h)
  else
    let '(nestedMock, h1) := createMock (depth nd + 1)%Z h in
    nd' ← target_set nd p nestedMock;
    Some (nestedMock, <[a := nd']> h1).

(** handler.set (index.ts 164-167); the trap answers [true]. *)
Definition handler_set (a : loc) (p : PropKey) (v : Value) (h : Heap) : option Heap :=
  nd ← h !! a;
  nd' ← target_set nd p v;
  Some (<[a := nd']> h).

(** An array index, as the language defines it: the canonical decimal
    numeral (no sign, no leading zero) of an integer below [2^32 - 1]. *)
Definition digit_value (c : Ascii.ascii) : option N :=
  let n := Ascii.N_of_ascii c in
  if ((48 <=? n) && (n <=? 57))%N then Some (n - 48)%N else None.

Fixpoint digits_value (s : string) (acc : N) : option N :=
  match s with
  | EmptyString => Some acc
  | String c s' => d ← digit_value c; digits_value s' (10 * acc + d)%N
  end.

Definition array_index (s : string) : option N :=
  match s with
  | EmptyString => None
  | String c s' =>
      if (Ascii.N_of_ascii c =? 48)%N && negb (String.eqb s' "") then None
      else n ← digits_value s 0%N; if (n <? 4294967295)%N then Some n else None
  end.

(** The string-named properties of the target, in the order they were
    created. *)
Definition string_keys (nd : Node) : list string :=
  omap (fun kv => match kv.1 with PStr s => Some s | PSym _ => None end) (props nd).

(** The order of array indices. *)
Definition index_le (x y : N * string) : Prop := (x.1 ≤ y.1)%N.

#[global] Instance index_le_dec x y : Decision (index_le x y).
Proof. unfold index_le. apply _. Defined.

(** [Object.keys(target)]: the string-named properties of the target (all
    of those in [props] are enumerable; the target's own [length], [name]
    and [prototype] are not, and are never listed), the array indices first
    in ascending order, then the other names in the order they were
    created. *)
Definition object_keys (nd : Node) : list string :=
  let ks := string_keys nd in
  (merge_sort index_le (omap (fun s => n ← array_index s; Some (n, s)) ks)).*2
  ++ filter (fun s => array_index s = None) ks.

(** handler.ownKeys (index.ts 170-172): what the trap returns. *)
Definition handler_ownKeys (a : loc) (h : Heap) : option (list string) :=
  nd ← h !! a; Some (object_keys nd).

(** ** Outcomes and the state monad of the model *)

(** How a call ends: [return a] or [throw e]. *)
Inductive Res (A : Type) :=
| Return (a : A)
| Throw (e : Value).
Arguments Return {A} a.
Arguments Throw {A} e.

Abbreviation Outcome := (Res Value).

Definition M (A : Type) := Heap -> option (Res A * Heap).

Definition ret {A} (a : A) : M A := fun h => Some (Return a, h).
Definition throw {A} (e : Value) : M A := fun h => Some (Throw e, h).
Definition stuck {A} : M A := fun _ => None.

Definition bind {A B} (c : M A) (k : A -> M B) : M B :=
  fun h =>
    match c h with
    | None => None
    | Some (Return a, h') => k a h'
    | Some (Throw e, h') => Some (Throw e, h')
    end.

Notation "'let*' x ':=' c 'in' k" := (bind c (fun x => k))
  (at level 10, x name, c at level 99, k at level 200).

(** ** Enumerating a stand-in

    [Object.keys(mock)], [Reflect.ownKeys(mock)], [for (k in mock)] and
    [{...mock}] all start with the [[OwnPropertyKeys]] operation of the
    proxy: the engine calls the [ownKeys] trap and then checks its result
    against the target. The result may not hold a key twice and has to hold
    every own key of the target that is not configurable; a result that
    passes (the target being extensible) is what the operation returns,
    any other ends the operation with a TypeError (whose message is the
    engine's own; the texts below stand for it). *)

(** The own keys of the target that are not configurable. The target is
    [fn] (index.ts 33), a function expression: the language gives it an
    own [prototype] property that is writable, not enumerable and not
    configurable ([length] and [name] are configurable). *)
Definition nonconfigurable_keys : list string := ["prototype"].

Definition proxy_ownKeys (a : loc) : M (list string) :=
  fun h =>
    ks ← handler_ownKeys a h;
    if negb (bool_decide (NoDup ks)) then
      Some (Throw (VTypeError "ownKeys: the trap result holds a key twice"), h)
    else if forallb (fun k => bool_decide (k ∈ ks)) nonconfigurable_keys then
      Some (Return ks, h)
    else
      Some (Throw (VTypeError "ownKeys: the trap result lacks a non-configurable key"), h).

(** ** Member access on values *)

(** The member names this library itself reads or writes; none of them is a
    member that arrays, promises, errors, primitives or bare closures have
    from the language, so reading one on such a value gives [undefined]. *)
Definition library_name (p : PropKey) : bool :=
  match p with
  | PStr s =>
      existsb (String.eqb s) (passthrough_names ++ ["calls"; "results"; "type"; "value"])
  | PSym _ => false
  end.

(** [o[p]] *)
Definition get_prop (o : Value) (p : PropKey) : M Value :=
  match o with
  | VUndef | VNull => throw (VTypeError "Cannot read properties of undefined or null")
  | VMock a =>
      fun h => match handler_get a p h with
               | Some (v, h') => Some (Return v, h')
               | None => None
               end
  | VBase a =>
      fun h => nd ← h !! a; v ← target_get nd p; Some (Return v, h)
  | VFun _ own =>
      if language_member p then stuck
      else ret (match p with PStr s => obj_get own s | PSym _ => VUndef end)
  | VObj fs =>
      match (match p with PStr s => assoc_get fs s | PSym _ => None end) with
      | Some v => ret v
      | None => if language_member p then stuck else ret VUndef
      end
  | VArr xs =>
      if decide (p = PStr "length") then ret (VNum (Z.of_nat (length xs)))
      else if library_name p then ret VUndef else stuck
  | _ => if library_name p then ret VUndef else stuck
  end.

(** [p in o], for the function values the membership test reaches. *)
Definition has_prop (o : Value) (p : PropKey) : M bool :=
  if negb (is_function o || is_object o) then
    throw (VTypeError "Cannot use 'in' operator to search for a key in a primitive")
  else if language_member p then stuck
  else
    match o with
    | VNull => throw (VTypeError "Cannot use 'in' operator to search for a key in null")
    | VMock a | VBase a =>
        fun h => nd ← h !! a; Some (Return (bool_decide (is_Some (assoc_get (props nd) p))), h)
    | VFun _ fs | VObj fs =>
        ret (match p with
             | PStr s => bool_decide (is_Some (assoc_get fs s))
             | PSym _ => false
             end)
    | _ => if library_name p then ret false else stuck
    end.

(** [o[p] = v]; plain data has no identity in this model, so only the
    objects of the heap can be written. *)
Definition set_prop (o : Value) (p : PropKey) (v : Value) : M unit :=
  match o with
  | VUndef | VNull => throw (VTypeError "Cannot set properties of undefined or null")
  | VMock a =>
      fun h => h' ← handler_set a p v h; Some (Return tt, h')
  | VBase a =>
      fun h => nd ← h !! a; nd' ← target_set nd p v; Some (Return tt, <[a := nd']> h)
  | _ => stuck
  end.

(** ** The recorder: createBaseMock (index.ts 29-81) *)

(** [{ type: 'return', value: res }] and [{ type: 'throw', value: err }] *)
Definition result_entry (o : Outcome) : Value :=
  match o with
  | Return res => VObj [("type", VStr "return"); ("value", res)]
  | Throw err => VObj [("type", VStr "throw"); ("value", err)]
  end.

(** [m[field].push(x)] on the bookkeeping object [m]: defined when [m] is an
    object whose [field] is an array. *)
Definition log_push (field : string) (x : Value) (m : Value) : option Value :=
  match m with
  | VObj fs =>
      match obj_get fs field with
      | VArr xs => Some (VObj (obj_set fs field (VArr (xs ++ [x]))))
      | _ => None
      end
  | _ => None
  end.

(** [self.mock[field].push(x)] on the function object [nd] *)
Definition push_node (field : string) (x : Value) (nd : Node) : option Node :=
  m ← target_get nd (PStr "mock");
  m' ← log_push field x m;
  Some (set_props (fun ps => assoc_set ps (PStr "mock") m') nd).

(** the same, for the recorder at address [a] *)
Definition record (a : loc) (field : string) (x : Value) (h : Heap) : option Heap :=
  nd ← h !! a;
  nd' ← push_node field x nd;
  Some (<[a := nd']> h).

(** The two logs of the recorder at [a], when its bookkeeping object has the
    shape [{ calls: [...], results: [...] }]. *)
Definition node_log (nd : Node) : option (list Value * list Value) :=
  match assoc_get (props nd) (PStr "mock") with
  | Some (VObj fs) =>
      match obj_get fs "calls", obj_get fs "results" with
      | VArr cs, VArr rs => Some (cs, rs)
      | _, _ => None
      end
  | _ => None
  end.

Definition log_at (h : Heap) (a : loc) : option (list Value * list Value) :=
  nd ← h !! a; node_log nd.

(** [next ?? impl] after [next = onceQueue.shift()] (index.ts 36-37);
    [shift] on an empty array gives [undefined]. *)
Definition toCall_of (nd : Node) : Value :=
  let next := hd VUndef (onceQueue nd) in
  if is_nullish next then impl nd else next.

(** index.ts 35-37: the arguments are logged, the queue is shifted and the
    function to call is chosen; the heap returned is the one the chosen
    function starts in. *)
Definition begin_call (a : loc) (args : list Value) (h : Heap) : option (Value * Heap) :=
  h0 ← record a "calls" (VArr args) h;
  nd ← h0 !! a;
  Some (toCall_of nd, <[a := set_onceQueue (tl (onceQueue nd)) nd]> h0).

(** The body of [fn] (index.ts 33-46). [callf] is how a function value is
    applied ([toCall.apply(this, args)]). Both arms of the [try] push one
    entry on [results] and hand the outcome on. *)
Definition fn (callf : Value -> list Value -> M Value)
    (a : loc) (args : list Value) : M Value :=
  fun h =>
    '(toCall, h1) ← begin_call a args h;
    '(o, h2) ← (if truthy toCall then callf toCall args h1
                else Some (Return VUndef, h1));
    h3 ← record a "results" (result_entry o) h2;
    Some (o, h3).

(** The values on which [Promise.resolve] has a member [then] to look at:
    those that can carry members of their own. Arrays, errors and the bare
    closures of this library have no such member. *)
Definition reads_then (v : Value) : bool :=
  match v with
  | VMock _ | VBase _ | VFun _ _ | VObj _ => true
  | _ => false
  end.

(** [Promise.resolve(v)]: a promise is handed back as it is; otherwise the
    member [then] of an object or function is read (through the [get] trap
    when [v] is a stand-in, which generates a child under that name), and a
    value whose [then] is not callable is wrapped in a fulfilled promise.
    When [then] is callable the new promise stays pending until a later job
    has called [then]; the model has no answer for that case. *)
Definition promise_resolve (v : Value) : M Value :=
  match v with
  | VPromise _ _ => ret v
  | _ =>
      if reads_then v then
        let* t := get_prop v (PStr "then") in
        if is_function t then stuck else ret (VPromise true v)
      else ret (VPromise true v)
  end.

Definition update_node (a : loc) (f : Node -> Node) : M unit :=
  fun h => nd ← h !! a; Some (Return tt, <[a := f nd]> h).

(** [fn.mock.calls = []; fn.mock.results = []] *)
Definition clear_log (m : Value) : option Value :=
  match m with
  | VObj fs => Some (VObj (obj_set (obj_set fs "calls" (VArr [])) "results" (VArr [])))
  | _ => None
  end.

(** The configuration methods (index.ts 50-78); [v] is the first argument.
    The sugar methods and [mockReset] reach [mockImplementation],
    [mockImplementationOnce] and [mockClear] through [fn]'s properties. *)
Definition method (callf : Value -> list Value -> M Value)
    (a : loc) (m : Method) (args : list Value) : M Value :=
  let v := hd VUndef args in
  let via (name : string) (f : Value) : M Value :=
    let* g := get_prop (VBase a) (PStr name) in callf g [f] in
  match m with
  | MImplementation =>
      let* _ := update_node a (set_impl v) in ret (VBase a)
  | MImplementationOnce =>
      let* _ := update_node a (fun nd => set_onceQueue (onceQueue nd ++ [v]) nd) in
      ret (VBase a)
  | MReturnValue => via "mockImplementation" (VConst v)
  | MReturnValueOnce => via "mockImplementationOnce" (VConst v)
  | MResolvedValue => via "mockImplementation" (VResolve v)
  | MResolvedValueOnce => via "mockImplementationOnce" (VResolve v)
  | MRejectedValue => via "mockImplementation" (VReject v)
  | MRejectedValueOnce => via "mockImplementationOnce" (VReject v)
  | MClear =>
      fun h =>
        nd ← h !! a;
        m0 ← target_get nd (PStr "mock");
        m1 ← clear_log m0;
        Some (Return (VBase a),
              <[a := set_props (fun ps => assoc_set ps (PStr "mock") m1) nd]> h)
  | MReset =>
      let* c := get_prop (VBase a) (PStr "mockClear") in
      let* _ := callf c [] in
      let* _ := update_node a (fun nd => set_onceQueue [] (set_impl (defaultImpl nd) nd)) in
      ret (VBase a)
  end.

(** ** Functions written by the test *)

(** What the body of such a function does: it returns, throws, calls a
    function value, or reads or writes a member, and goes on from the
    outcome ([try]/[catch] is the continuation looking at a [Throw]). *)
Inductive Prog :=
| PRet (v : Value)
| PThrow (e : Value)
| PCall (f : Value) (args : list Value) (k : Outcome -> Prog)
| PGet (o : Value) (p : PropKey) (k : Outcome -> Prog)
| PSet (o : Value) (p : PropKey) (v : Value) (k : Outcome -> Prog).

Fixpoint exec (callf : Value -> list Value -> M Value) (p : Prog) : M Value :=
  match p with
  | PRet v => ret v
  | PThrow e => throw e
  | PCall f args k =>
      fun h => '(o, h') ← callf f args h; exec callf (k o) h'
  | PGet o p k =>
      fun h => '(o', h') ← get_prop o p h; exec callf (k o') h'
  | PSet o p v k =>
      fun h =>
        '(r, h') ← set_prop o p v h;
        exec callf (k (match r with Return _ => Return VUndef | Throw e => Throw e end)) h'
  end.

(** ** isMock and getCallInfo *)

(** index.ts 215-217; the conjuncts are evaluated left to right and
    [value.mock] is read anew by each of them. *)
Definition isMock (value : Value) : M bool :=
  if negb (String.eqb (typeof value) "function") then ret false else
  let* has := has_prop value (PStr "mock") in
  if negb has then ret false else
  let* m := get_prop value (PStr "mock") in
  if negb (String.eqb (typeof m) "object") then ret false else
  let* m' := get_prop value (PStr "mock") in
  let* c := get_prop m' (PStr "calls") in
  if negb (is_array c) then ret false else
  let* m'' := get_prop value (PStr "mock") in
  let* r := get_prop m'' (PStr "results") in
  ret (is_array r).

Record CallInfo := mkCallInfo {
  callCount : Z;
  calls : list Value;
  results : list Value;
  lastCall : Value;
  lastResult : Value
}.

(** [xs[xs.length - 1] || dflt]; the index is [-1] on an empty array, which
    reads [undefined]. *)
Definition last_or (xs : list Value) (dflt : Value) : Value :=
  let x := default VUndef (last xs) in
  if truthy x then x else dflt.

(** [mockFn.mock[field]], which [isMock] has checked to be an array. *)
Definition mock_array (mockFn : Value) (field : string) : M (list Value) :=
  let* m := get_prop mockFn (PStr "mock") in
  let* xs := get_prop m (PStr field) in
  match xs with VArr l => ret l | _ => stuck end.

(** index.ts 274-288. The object literal reads [mockFn.mock.calls] and
    [mockFn.mock.results] several times; the reads do not change anything,
    and each log is read once here. *)
Definition getCallInfo (mockFn : Value) : M CallInfo :=
  let* ok := isMock mockFn in
  if negb ok then throw (VTypeError "Argument must be a mock function") else
  let* cs := mock_array mockFn "calls" in
  let* rs := mock_array mockFn "results" in
  ret (mkCallInfo (Z.of_nat (length cs)) cs rs
         (last_or cs (VArr []))
         (last_or rs (result_entry (Return VUndef)))).

(** [xs.forEach(f)] *)
Fixpoint for_each {A} (f : A -> M unit) (xs : list A) : M unit :=
  match xs with
  | [] => ret tt
  | x :: xs' => let* _ := f x in for_each f xs'
  end.

Section Calls.

(** The bodies of the test's functions, by index, applied to the arguments. *)
Variable ftab : nat -> list Value -> Prog.

(** Applying a function value; [n] bounds the depth of nested calls. *)
Fixpoint call (n : nat) (f : Value) (args : list Value) : M Value :=
  match n with
  | O => stuck
  | S n' =>
      match f with
      | VFun id _ => exec (call n') (ftab id args)
      | VMock a | VBase a => fn (call n') a args
      | VMethod a m => method (call n') a m args
      | VConst v => ret v
      | VResolve v => promise_resolve v
      | VReject e => ret (VPromise false e)
      | VNested d =>
          fun h => let '(v, h') := createMock (d + 1)%Z h in Some (Return v, h')
      | _ => throw (VTypeError "not a function")
      end
  end.

(** [argss.map(args => recorder(...args))] with every outcome kept: the
    invocations of the recorder at [a], one after the other. *)
Fixpoint invoke_all (n : nat) (a : loc) (argss : list (list Value)) (h : Heap)
  : option (list Outcome * Heap) :=
  match argss with
  | [] => Some ([], h)
  | args :: rest =>
      '(o, h1) ← call n (VMock a) args h;
      '(os, h2) ← invoke_all n a rest h1;
      Some (o :: os, h2)
  end.

(** [fs.forEach(f => recorder.mockImplementationOnce(f))] *)
Fixpoint enqueue_all (n : nat) (a : loc) (fs : list Value) (h : Heap) : option Heap :=
  match fs with
  | [] => Some h
  | f :: fs' =>
      match call n (VMethod a MImplementationOnce) [f] h with
      | Some (Return _, h1) => enqueue_all n a fs' h1
      | _ => None
      end
  end.

(** In the run of the invocations [argss] of the recorder at [a] that
    started in [h] and ended with the outcomes [os], invocation [i] was
    served by [f]: after the first [i] invocations [fn] logged the call,
    shifted the queue and chose [f] (index.ts 35-37), and the outcome of the
    invocation is the one [f] ended with when applied to the arguments of
    the invocation in the heap [fn] left for it, or [undefined] returned
    when [f] is nothing to call (index.ts 39). *)
Definition served_by (n : nat) (a : loc) (h : Heap)
    (argss : list (list Value)) (os : list Outcome) (i : nat) (f : Value) : Prop :=
  ∃ args o hi hb,
    argss !! i = Some args ∧ os !! i = Some o ∧
    invoke_all (S n) a (take i argss) h = Some (take i os, hi) ∧
    begin_call a args hi = Some (f, hb) ∧
    if truthy f then ∃ he, call n f args hb = Some (o, he) else o = Return VUndef.

(** [f], applied to [args], ends with [o] in every heap and leaves the
    recorder at [a] as it found it. *)
Definition answers (n : nat) (a : loc) (f : Value) (args : list Value) (o : Outcome) : Prop :=
  ∀ h : Heap, is_Some (h !! a) →
    ∃ h', call n f args h = Some (o, h') ∧ h' !! a = h !! a.

(** Whenever [f] ends, it has left the recorder at [a] as it found it. *)
Definition quiet (n : nat) (a : loc) (f : Value) : Prop :=
  ∀ args (h : Heap) o h',
    is_Some (h !! a) → call n f args h = Some (o, h') → h' !! a = h !! a.

(** index.ts 252-254: [if (isMock(mockProp)) mockProp.mockImplementation(value)] *)
Definition install (n : nat) (mockProp value : Value) : M unit :=
  let* ok := isMock mockProp in
  if ok then
    let* f := get_prop mockProp (PStr "mockImplementation") in
    let* _ := call n f [value] in
    ret tt
  else ret tt.

(** The callback of [forEach] in createMockWithDefaults (index.ts 249-258). *)
Definition default_entry (n : nat) (mockObj : Value) (kv : string * Value) : M unit :=
  let '(key, value) := kv in
  if String.eqb (typeof value) "function" then
    let* mockProp := get_prop mockObj (PStr key) in
    install n mockProp value
  else set_prop mockObj (PStr key) value.

(** index.ts 243-262; [defaults] is [None] when the argument is left out,
    otherwise [Object.entries(defaults)]. *)
Definition createMockWithDefaults (n : nat)
    (defaults : option (list (string * Value))) : M Value :=
  fun h =>
    let '(mockObj, h1) := createMock 0 h in
    (let* _ := match defaults with
               | Some entries => for_each (default_entry n mockObj) entries
               | None => ret tt
               end in
     ret mockObj) h1.

End Calls.

(** ** What the statements below speak about *)

(** What a push leaves alone. *)
Definition same_closure (nd nd' : Node) : Prop :=
  impl nd' = impl nd ∧ onceQueue nd' = onceQueue nd ∧
  defaultImpl nd' = defaultImpl nd ∧ depth nd' = depth nd.

(** A generated child that nothing has touched but its behaviors: its
    bookkeeping object and its [mockImplementation] are the ones
    [createBaseMock] gave it. *)
Definition good_child (c : loc) (nd : Node) : Prop :=
  is_Some (node_log nd) ∧
  assoc_get (props nd) (PStr "mockImplementation") = Some (VMethod c MImplementation).

(** What holds of the root [r] while createMockWithDefaults runs: the
    functions among its properties are its own methods or, under names the
    [get] trap does not hand to the target, generated children. *)
Definition root_inv (r : loc) (h : Heap) : Prop :=
  ∃ ndr, h !! r = Some ndr ∧ depth ndr = 0%Z ∧
    ∀ p cur, assoc_get (props ndr) p = Some cur → is_function cur = true →
      (∃ m, cur = VMethod r m) ∨
      (passthrough p = false ∧
       ∃ c ndc, cur = VMock c ∧ c ≠ r ∧ h !! c = Some ndc ∧ good_child c ndc).

(** What createMockWithDefaults has made of the entry [key: value] when it
    hands out the root [r] in the heap [h].
    - A function under a name that the [get] trap hands to the target: the
      member of the root is still the one [createBaseMock] put there, which
      is not a recorder, and the root's own behavior is still the default
      one; the entry was skipped.
    - A function under any other name: the member is a generated child that
      passes [isMock] and has the function as its persistent behavior.
    - Any other value: the member is that value. *)
Definition settled (r : loc) (h : Heap) (kv : string * Value) : Prop :=
  ∃ ndr, h !! r = Some ndr ∧
    if is_function kv.2 then
      if passthrough (PStr kv.1) then
        assoc_get (props ndr) (PStr kv.1)
          = assoc_get (props (createBaseMock r (VNested 0) 0)) (PStr kv.1) ∧
        isMock (default VUndef (assoc_get (props ndr) (PStr kv.1))) h
          = Some (Return false, h) ∧
        impl ndr = VNested 0
      else
        ∃ c ndc, assoc_get (props ndr) (PStr kv.1) = Some (VMock c) ∧ c ≠ r ∧
                 h !! c = Some ndc ∧ good_child c ndc ∧
                 isMock (VMock c) h = Some (Return true, h) ∧
                 impl ndc = kv.2
    else assoc_get (props ndr) (PStr kv.1) = Some kv.2.

(** Reads and writes of members of one stand-in, as a test performs them. *)
Inductive Access :=
| ReadMember (p : PropKey)
| WriteMember (p : PropKey) (v : Value).

Definition access (a : loc) (op : Access) (h : Heap) : option Heap :=
  match op with
  | ReadMember p => snd <$> handler_get a p h
  | WriteMember p v => handler_set a p v h
  end.

Fixpoint accesses (a : loc) (ops : list Access) (h : Heap) : option Heap :=
  match ops with
  | [] => Some h
  | op :: ops' => h' ← access a op h; accesses a ops' h'
  end.

(** The member an access leaves in the cache of the stand-in: a write keeps
    its member, and so does a read of a member that is not handed to the
    target. *)
Definition cached_by (op : Access) : option string :=
  match op with
  | ReadMember (PStr s) => if passthrough (PStr s) then None else Some s
  | WriteMember (PStr s) _ => Some s
  | _ => None
  end.

(** ** Test functions of the examples

    [rec] is the stand-in at address 0. *)

(** Going on with the value of a step, a throw ending the function. *)
Definition on_value (k : Value -> Prog) (o : Outcome) : Prog :=
  match o with
  | Return v => k v
  | Throw e => PThrow e
  end.

(** [() => { rec.mockClear(); return 7 }] *)
Definition clearing_body : Prog :=
  PGet (VMock 0) (PStr "mockClear") (on_value (fun c =>
  PCall c [] (on_value (fun _ =>
  PRet (VNum 7))))).

(** [() => [rec.mock.calls.length, rec.mock.results.length]] *)
Definition observing_body : Prog :=
  PGet (VMock 0) (PStr "mock") (on_value (fun m =>
  PGet m (PStr "calls") (on_value (fun cs =>
  PGet cs (PStr "length") (on_value (fun n =>
  PGet m (PStr "results") (on_value (fun rs =>
  PGet rs (PStr "length") (on_value (fun k =>
  PRet (VArr [n; k]))))))))))).

Definition example_ftab (id : nat) (args : list Value) : Prog :=
  match id with
  | 0 => clearing_body
  | 1 => observing_body
  | 2 => PThrow (VStr "boom")
  | 3 => PRet (VStr "first")
  | 4 => PRet (VStr "second")
  | _ => PRet (VStr "always")
  end%nat.

(** [() => { rec.mockReset(); return "first" }] *)
Definition resetting_body : Prog :=
  PGet (VMock 0) (PStr "mockReset") (on_value (fun c =>
  PCall c [] (on_value (fun _ =>
  PRet (VStr "first"))))).

(** The table of the examples with the resetting function at index 0. *)
Definition reset_ftab (id : nat) (args : list Value) : Prog :=
  match id with
  | 0%nat => resetting_body
  | _ => example_ftab id args
  end.

(** A stand-in fresh from [createMock()]. *)
Definition fresh_heap : Heap := (createMock 0 []).2.

(** A stand-in that was called once with ["1"]. *)
Definition called_heap : Heap :=
  match call example_ftab 2 (VMock 0) [VStr "1"] fresh_heap with
  | Some (_, h) => h
  | None => []
  end.

(** A recorder fresh from [createBaseMock(f)], under a handler of depth
    [d]. *)
Definition recorder_at_depth (f : Value) (d : Z) : Heap := [createBaseMock 0 f d].
Definition recorder_heap (f : Value) : Heap := recorder_at_depth f 0.

(** ** Further definitions: the remaining trap, member chains, planned runs *)

(** handler.getOwnPropertyDescriptor (index.ts 175-184): [prop in target]
    decides, and the descriptor carries [target[prop]]. *)
Definition handler_getOwnPropertyDescriptor (a : loc) (p : PropKey) (h : Heap)
  : option Value :=
  nd ← h !! a;
  if language_member p then None
  else
    match assoc_get (props nd) p with
    | Some v =>
        Some (VObj [("configurable", VBool true); ("enumerable", VBool true);
                    ("value", v)])
    | None => Some VUndef
    end.

(** What [Promise.resolve] returns for a value it does not look into: a
    promise as it is, any other value inside a fulfilled promise. *)
Definition promise_of (v : Value) : Value :=
  match v with VPromise _ _ => v | _ => VPromise true v end.

(** [v.s1.s2. ... .sk]: a chain of member reads. *)
Fixpoint walk (v : Value) (path : list string) : M Value :=
  match path with
  | [] => ret v
  | s :: path' => let* c := get_prop v (PStr s) in walk c path'
  end.

(** [next ?? impl] for a queue and a persistent behavior given apart. *)
Definition chosen (queue : list Value) (persistent : Value) : Value :=
  let next := hd VUndef queue in
  if is_nullish next then persistent else next.

(** A run of invocations as the queue and the persistent behavior plan it:
    each invocation is served by the function chosen from what is left of
    the queue, which ends with the outcome listed for it, or yields
    [undefined] when nothing callable is chosen. *)
Fixpoint plan (ftab : nat -> list Value -> Prog) (n : nat) (a : loc)
    (queue : list Value) (persistent : Value)
    (argss : list (list Value)) (os : list Outcome) : Prop :=
  match argss, os with
  | [], [] => True
  | args :: argss', o :: os' =>
      (truthy (chosen queue persistent) = true ∧
       answers ftab n a (chosen queue persistent) args o
       ∨ truthy (chosen queue persistent) = false ∧ o = Return VUndef) ∧
      plan ftab n a (tl queue) persistent argss' os'
  | _, _ => False
  end.

(** The methods of a recorder are the ones [createBaseMock] attached. *)
Definition methods_intact (a : loc) (nd : Node) : Prop :=
  assoc_get (props nd) (PStr "mockImplementation") = Some (VMethod a MImplementation) ∧
  assoc_get (props nd) (PStr "mockImplementationOnce") = Some (VMethod a MImplementationOnce) ∧
  assoc_get (props nd) (PStr "mockClear") = Some (VMethod a MClear).

(** The recorder of [called_heap]. *)
Definition called_node : Node :=
  default (createBaseMock 0 VUndef 0) (called_heap !! 0%nat).

(** [called_heap] after [rec.mockClear = f3], [f3] a test function that
    only returns. *)
Definition overridden_heap : Heap :=
  default [] (handler_set 0 (PStr "mockClear") (VFun 3 []) called_heap).

Definition overridden_node : Node :=
  default (createBaseMock 0 VUndef 0) (overridden_heap !! 0%nat).


(** A recorder with two queued behaviors and a persistent one, and where
    three invocations leave it. *)
Definition queued_node : Node :=
  set_onceQueue [VFun 3 []; VFun 4 []] (createBaseMock 0 (VFun 5 []) 0).
Definition queued_heap : Heap := [queued_node].
Definition queued_final_heap : Heap :=
  match invoke_all example_ftab 2 0 [[VStr "a"]; [VStr "b"]; [VStr "c"]] queued_heap with
  | Some (_, h) => h
  | None => []
  end.

(** The stand-in of [fresh_heap] after two calls of [mockImplementationOnce]
    and three invocations. *)
Definition fifo_heap : Heap :=
  <[0%nat := set_onceQueue [VFun 3 []; VFun 4 []] (createBaseMock 0 (VNested 0) 0)]> fresh_heap.
Definition fifo_final_heap : Heap :=
  match invoke_all example_ftab 2 0 [[VStr "a"]; [VStr "b"]; [VStr "c"]] fifo_heap with
  | Some (_, h) => h
  | None => []
  end.

(** The recorder under the stand-in of [fresh_heap]. *)
Definition fresh_node : Node := createBaseMock 0 (VNested 0) 0.

(** Two stand-ins from two [createMock()] calls, the second then called
    once. *)
Definition two_heap : Heap := (createMock 0 fresh_heap).2.
Definition two_called_heap : Heap :=
  match call example_ftab 2 (VMock 1) [] two_heap with
  | Some (_, h) => h
  | None => []
  end.

(** The stand-in of [fresh_heap] called with ["1"], then with ["2"]. *)
Definition twice_called_heap : Heap :=
  match invoke_all example_ftab 2 0 [[VStr "1"]; [VStr "2"]] fresh_heap with
  | Some (_, h) => h
  | None => []
  end.

(** The stand-in of [fresh_heap] after [mock.getUser], [mock.id = 1] and
    [mock.mock]. *)
Definition accessed_heap : Heap :=
  default []
    (accesses 0 [ReadMember (PStr "getUser"); WriteMember (PStr "id") (VNum 1);
                 ReadMember (PStr "mock")] fresh_heap).

(** The stand-in of [fresh_heap] after [mock.id = "1"]. *)
Definition written_heap : Heap :=
  default [] (handler_set 0 (PStr "id") (VStr "1") fresh_heap).

(** The same after [mock.email = "x"] as well. *)
Definition rewritten_heap : Heap :=
  default [] (handler_set 0 (PStr "email") (VStr "x") written_heap).

(** The stand-in of [fresh_heap] after [mock.mock = "1"]. *)
Definition unlogged_heap : Heap :=
  default [] (handler_set 0 (PStr "mock") (VStr "1") fresh_heap).

(** * Properties *)

(** ** Object literals and the two logs *)

Section AssocFacts.
Context {K V : Type} `{EqDecision K}.
Implicit Types (l : list (K * V)) (k : K) (v : V).

Lemma assoc_get_set_eq l k v : assoc_get (assoc_set l k v) k = Some v.
Proof.
  induction l as [|[k' v'] l IH]; simpl.
  - by rewrite decide_True.
  - destruct (decide (k' = k)) as [->|Hne]; simpl.
    + by rewrite decide_True.
    + by rewrite decide_False.
Qed.

Lemma assoc_get_set_ne l k k' v : k ≠ k' → assoc_get (assoc_set l k v) k' = assoc_get l k'.
Proof.
  intros Hne. induction l as [|[k0 v0] l IH]; simpl.
  - by rewrite decide_False.
  - destruct (decide (k0 = k)) as [->|Hk]; simpl.
    + by rewrite !decide_False.
    + by destruct (decide (k0 = k')).
Qed.

Lemma assoc_set_twice l k v w : assoc_set (assoc_set l k v) k w = assoc_set l k w.
Proof.
  induction l as [|[k' v'] l IH]; simpl.
  - by rewrite decide_True.
  - destruct (decide (k' = k)) as [->|Hne]; simpl.
    + by rewrite decide_True.
    + by rewrite decide_False, IH.
Qed.

Lemma assoc_get_is_Some l k : is_Some (assoc_get l k) ↔ k ∈ l.*1.
Proof.
  induction l as [|[k' v'] l IH]; simpl.
  - rewrite elem_of_nil. split; [by intros [? ?] | done].
  - rewrite elem_of_cons. destruct (decide (k' = k)) as [->|Hne].
    + split; [by left | by eexists].
    + rewrite IH. split; [by right | by intros [?|?]].
Qed.

Lemma assoc_get_Some_elem l k v : assoc_get l k = Some v → (k, v) ∈ l.
Proof.
  induction l as [|[k' v'] l IH]; simpl; [done|].
  destruct (decide (k' = k)) as [->|Hne].
  - intros E. injection E as ->. by left.
  - intros E. right. by apply IH.
Qed.

Lemma assoc_set_is_Some l k k' v :
  is_Some (assoc_get (assoc_set l k v) k') ↔ k = k' ∨ is_Some (assoc_get l k').
Proof.
  destruct (decide (k = k')) as [->|Hne].
  - rewrite assoc_get_set_eq. split; [by left | by eexists].
  - rewrite assoc_get_set_ne by done. split; [by right | by intros [?|?]].
Qed.

End AssocFacts.

Lemma obj_get_set_eq fs k v : obj_get (obj_set fs k v) k = v.
Proof. unfold obj_get, obj_set. by rewrite assoc_get_set_eq. Qed.

Lemma obj_get_set_ne fs k k' v : k ≠ k' → obj_get (obj_set fs k v) k' = obj_get fs k'.
Proof. intros Hne. unfold obj_get, obj_set. by rewrite assoc_get_set_ne. Qed.

Lemma push_node_calls nd cs rs x :
  node_log nd = Some (cs, rs) →
  ∃ nd', push_node "calls" x nd = Some nd' ∧
         node_log nd' = Some (cs ++ [x], rs) ∧ same_closure nd nd'.
Proof.
  unfold node_log, push_node, target_get. simpl. intros H.
  destruct (assoc_get (props nd) (PStr "mock")) as [[]|] eqn:E; try discriminate.
  destruct (obj_get fields "calls") eqn:Ec; try discriminate.
  destruct (obj_get fields "results") eqn:Er; try discriminate.
  injection H as <- <-. simpl. unfold log_push. rewrite Ec.
  eexists. split; [reflexivity|]. split; [|by repeat split].
  simpl. rewrite assoc_get_set_eq, obj_get_set_eq, obj_get_set_ne, Er; done.
Qed.

Lemma push_node_results nd cs rs x :
  node_log nd = Some (cs, rs) →
  ∃ nd', push_node "results" x nd = Some nd' ∧
         node_log nd' = Some (cs, rs ++ [x]) ∧ same_closure nd nd'.
Proof.
  unfold node_log, push_node, target_get. simpl. intros H.
  destruct (assoc_get (props nd) (PStr "mock")) as [[]|] eqn:E; try discriminate.
  destruct (obj_get fields "calls") eqn:Ec; try discriminate.
  destruct (obj_get fields "results") eqn:Er; try discriminate.
  injection H as <- <-. simpl. unfold log_push. rewrite Er.
  eexists. split; [reflexivity|]. split; [|by repeat split].
  simpl. rewrite assoc_get_set_eq, obj_get_set_eq, obj_get_set_ne, Ec; done.
Qed.

Lemma lookup_insert_node (h : Heap) a nd nd' :
  h !! a = Some nd → <[a := nd']> h !! a = Some nd'.
Proof. intros H. apply list_lookup_insert_eq. by eapply lookup_lt_Some. Qed.

Lemma log_at_insert (h : Heap) a nd nd' :
  h !! a = Some nd → log_at (<[a := nd']> h) a = node_log nd'.
Proof. intros H. unfold log_at. by rewrite (lookup_insert_node h a nd nd'). Qed.

(** ** One invocation, step by step *)

(** Lines 35-37 on a recorder whose logs are [cs] and [rs]: the chosen
    function starts in a heap where the call is already logged and the queue
    already shifted. *)
Lemma begin_call_spec a args (h : Heap) nd cs rs :
  h !! a = Some nd → node_log nd = Some (cs, rs) →
  ∃ nd1, begin_call a args h = Some (toCall_of nd, <[a := nd1]> h) ∧
         node_log nd1 = Some (cs ++ [VArr args], rs) ∧
         onceQueue nd1 = tl (onceQueue nd) ∧ impl nd1 = impl nd.
Proof.
  intros Ha Hlog.
  destruct (push_node_calls nd cs rs (VArr args) Hlog) as (nd0 & Hp & Hl0 & Hi & Hq & _).
  exists (set_onceQueue (tl (onceQueue nd0)) nd0).
  unfold begin_call, record. rewrite Ha. simpl. rewrite Hp. simpl.
  rewrite (lookup_insert_node h a nd nd0 Ha). simpl.
  rewrite list_insert_insert_eq. unfold toCall_of. rewrite Hq, Hi.
  repeat split; done.
Qed.

(** Lines 40 and 43 on a recorder whose logs are [cs] and [rs]. *)
Lemma record_result_spec a x (h : Heap) nd cs rs :
  h !! a = Some nd → node_log nd = Some (cs, rs) →
  ∃ nd', record a "results" x h = Some (<[a := nd']> h) ∧
         node_log nd' = Some (cs, rs ++ [x]) ∧ same_closure nd nd'.
Proof.
  intros Ha Hlog.
  destruct (push_node_results nd cs rs x Hlog) as (nd' & Hp & Hl & Hs).
  exists nd'. unfold record. rewrite Ha. simpl. by rewrite Hp.
Qed.

Lemma log_at_Some (h : Heap) a cs rs :
  log_at h a = Some (cs, rs) → ∃ nd, h !! a = Some nd ∧ node_log nd = Some (cs, rs).
Proof.
  unfold log_at. destruct (h !! a) as [nd|]; [|discriminate]. simpl. eauto.
Qed.

(** The body of [fn] once the chosen function has run to outcome [o]. *)
Lemma fn_finish callf a args (h h1 h2 : Heap) f o cs2 rs2 :
  begin_call a args h = Some (f, h1) →
  (if truthy f then callf f args h1 else Some (Return VUndef, h1)) = Some (o, h2) →
  log_at h2 a = Some (cs2, rs2) →
  ∃ nd3, fn callf a args h = Some (o, <[a := nd3]> h2) ∧
         node_log nd3 = Some (cs2, rs2 ++ [result_entry o]) ∧
         (∀ nd2, h2 !! a = Some nd2 → same_closure nd2 nd3).
Proof.
  intros Hb Hrun Hlog.
  destruct (log_at_Some _ _ _ _ Hlog) as (nd2 & Ha2 & Hl2).
  destruct (record_result_spec a (result_entry o) h2 nd2 cs2 rs2 Ha2 Hl2)
    as (nd3 & Hr & Hl3 & Hs).
  exists nd3. unfold fn. rewrite Hb. cbn [mbind option_bind]. rewrite Hrun.
  cbn [mbind option_bind]. rewrite Hr. cbn [mbind option_bind].
  split; [done|]. split; [done|]. intros nd2' E. rewrite Ha2 in E. by injection E as <-.
Qed.

Section Recorder.

Variable ftab : nat → list Value → Prog.

(** C4: when the chosen behavior ends with outcome [o] (it returns [r],
    [o = Return r], or it throws [e], [o = Throw e]), the invocation ends
    with the very same outcome, and the outcome log is the one the
    behavior left with exactly the entry [{type, value}] of [o] appended:
    [{type: 'throw', value: e}] and [e] raised again, or
    [{type: 'return', value: r}] and [r] returned. *)
Theorem invocation_records_and_delivers_outcome
    n a args (h h1 h2 : Heap) f o cs2 rs2 :
  begin_call a args h = Some (f, h1) →
  truthy f = true →
  call ftab n f args h1 = Some (o, h2) →
  log_at h2 a = Some (cs2, rs2) →
  ∃ h3, call ftab (S n) (VMock a) args h = Some (o, h3) ∧
        log_at h3 a = Some (cs2, rs2 ++ [result_entry o]) ∧
        result_entry o =
          match o with
          | Return r => VObj [("type", VStr "return"); ("value", r)]
          | Throw e => VObj [("type", VStr "throw"); ("value", e)]
          end.
Proof.
  intros Hb Ht Hrun Hlog.
  destruct (fn_finish (call ftab n) a args h h1 h2 f o cs2 rs2 Hb) as (nd3 & Hfn & Hl3 & _).
  { by rewrite Ht. }
  { done. }
  destruct (log_at_Some _ _ _ _ Hlog) as (nd2 & Ha2 & _).
  exists (<[a := nd3]> h2). split; [exact Hfn|]. split.
  - by rewrite (log_at_insert h2 a nd2 nd3 Ha2).
  - by destruct o.
Qed.

(** C3 (as amended): the chosen function starts in a heap where the call
    log already holds the entry of the invocation that runs it, while the
    outcome log does not; and whatever logs [cs2], [rs2] it leaves behind,
    the invocation appends exactly one outcome entry to them when it
    hands the outcome on, whether that outcome is a return or a throw. *)
Theorem behavior_sees_call_logged_outcome_pending
    n a args (h : Heap) nd cs rs :
  h !! a = Some nd →
  node_log nd = Some (cs, rs) →
  ∃ h1, begin_call a args h = Some (toCall_of nd, h1) ∧
        log_at h1 a = Some (cs ++ [VArr args], rs) ∧
        ∀ o h2 cs2 rs2,
          (if truthy (toCall_of nd) then call ftab n (toCall_of nd) args h1
           else Some (Return VUndef, h1)) = Some (o, h2) →
          log_at h2 a = Some (cs2, rs2) →
          ∃ h3, call ftab (S n) (VMock a) args h = Some (o, h3) ∧
                log_at h3 a = Some (cs2, rs2 ++ [result_entry o]).
Proof.
  intros Ha Hlog.
  destruct (begin_call_spec a args h nd cs rs Ha Hlog) as (nd1 & Hb & Hl1 & _).
  exists (<[a := nd1]> h). split; [exact Hb|]. split.
  { by rewrite (log_at_insert h a nd nd1 Ha). }
  intros o h2 cs2 rs2 Hrun Hlog2.
  destruct (fn_finish (call ftab n) a args h _ h2 _ o cs2 rs2 Hb Hrun Hlog2)
    as (nd3 & Hfn & Hl3 & _).
  destruct (log_at_Some _ _ _ _ Hlog2) as (nd2 & Ha2 & _).
  exists (<[a := nd3]> h2). split; [exact Hfn|].
  by rewrite (log_at_insert h2 a nd2 nd3 Ha2).
Qed.

Lemma function_not_nullish f : is_function f = true → is_nullish f = false ∧ truthy f = true.
Proof. by destruct f. Qed.

(** One invocation whose chosen function leaves the recorder alone. *)
Lemma invoke_step n a args (h h2 : Heap) nd cs rs o :
  h !! a = Some nd → node_log nd = Some (cs, rs) →
  (∀ h1, begin_call a args h = Some (toCall_of nd, h1) →
     (if truthy (toCall_of nd) then call ftab n (toCall_of nd) args h1
      else Some (Return VUndef, h1)) = Some (o, h2) ∧ h2 !! a = h1 !! a) →
  ∃ nd', call ftab (S n) (VMock a) args h = Some (o, <[a := nd']> h2) ∧
         <[a := nd']> h2 !! a = Some nd' ∧
         node_log nd' = Some (cs ++ [VArr args], rs ++ [result_entry o]) ∧
         onceQueue nd' = tl (onceQueue nd) ∧ impl nd' = impl nd.
Proof.
  intros Ha Hlog Hrun.
  destruct (begin_call_spec a args h nd cs rs Ha Hlog) as (nd1 & Hb & Hl1 & Hq1 & Hi1).
  destruct (Hrun _ Hb) as [Hr Hsame].
  rewrite (lookup_insert_node h a nd nd1 Ha) in Hsame.
  assert (Hlog2 : log_at h2 a = Some (cs ++ [VArr args], rs)).
  { unfold log_at. by rewrite Hsame. }
  destruct (fn_finish (call ftab n) a args h _ h2 _ o _ _ Hb Hr Hlog2)
    as (nd3 & Hfn & Hl3 & Hcl).
  destruct (Hcl nd1 Hsame) as (Hi3 & Hq3 & _).
  exists nd3. split; [exact Hfn|]. split.
  { by apply (lookup_insert_node h2 a nd1). }
  split; [done|]. by rewrite Hq3, Hi3.
Qed.

Lemma invoke_answers n a args (h : Heap) nd cs rs o :
  h !! a = Some nd → node_log nd = Some (cs, rs) →
  (truthy (toCall_of nd) = true ∧ answers ftab n a (toCall_of nd) args o
   ∨ truthy (toCall_of nd) = false ∧ o = Return VUndef) →
  ∃ h' nd', call ftab (S n) (VMock a) args h = Some (o, h') ∧
            h' !! a = Some nd' ∧
            node_log nd' = Some (cs ++ [VArr args], rs ++ [result_entry o]) ∧
            onceQueue nd' = tl (onceQueue nd) ∧ impl nd' = impl nd.
Proof.
  intros Ha Hlog Hsel.
  destruct (begin_call_spec a args h nd cs rs Ha Hlog) as (nd1 & Hb & _).
  assert (Hrun : ∃ h2,
    (if truthy (toCall_of nd) then call ftab n (toCall_of nd) args (<[a := nd1]> h)
     else Some (Return VUndef, <[a := nd1]> h)) = Some (o, h2) ∧
    h2 !! a = <[a := nd1]> h !! a).
  { destruct Hsel as [[Ht Hans] | [Ht ->]]; rewrite Ht.
    - apply Hans. rewrite (lookup_insert_node h a nd nd1 Ha). by eexists.
    - by eexists. }
  destruct Hrun as (h2 & Hr & Hsame).
  destruct (invoke_step n a args h h2 nd cs rs o Ha Hlog) as (nd' & Hc & Hrest).
  { intros h1 Hb'. rewrite Hb in Hb'. injection Hb' as <-. by split. }
  by exists (<[a := nd']> h2), nd'.
Qed.

(** With functions in the queue, the function [fn] chooses is the front of
    the queue, or the persistent behavior when the queue is empty. *)
Lemma toCall_of_front nd :
  Forall (λ f, is_function f = true) (onceQueue nd) →
  toCall_of nd = default (impl nd) (onceQueue nd !! 0%nat).
Proof.
  unfold toCall_of. destruct (onceQueue nd) as [|f q]; simpl; [done|].
  intros H. inversion H as [|? ? Hf _]; subst.
  by destruct (function_not_nullish f Hf) as [-> _].
Qed.

Lemma quiet_toCall n a nd :
  quiet ftab n a (impl nd) → Forall (quiet ftab n a) (onceQueue nd) → quiet ftab n a (toCall_of nd).
Proof.
  intros Hi Hq. unfold toCall_of. destruct (onceQueue nd) as [|f q]; simpl; [done|].
  destruct (is_nullish f); [done|]. by inversion Hq.
Qed.

(** [mockImplementationOnce] (index.ts 55-58), once for each of [fs]: the
    functions are appended to the queue in the order of the calls. *)
Lemma enqueue_all_spec n a fs :
  ∀ (h : Heap) nd,
    h !! a = Some nd →
    enqueue_all ftab (S n) a fs h = Some (<[a := set_onceQueue (onceQueue nd ++ fs) nd]> h).
Proof.
  induction fs as [|f fs IH]; intros h nd Ha.
  - simpl. rewrite app_nil_r. f_equal. symmetry. rewrite list_insert_id; [done|].
    rewrite Ha. by destruct nd.
  - cbn [enqueue_all call]. unfold method, bind, update_node. rewrite Ha. cbn [mbind option_bind].
    cbn [hd ret].
    rewrite (IH _ (set_onceQueue (onceQueue nd ++ [f]) nd)
               (lookup_insert_node h a nd _ Ha)).
    rewrite list_insert_insert_eq. cbn [onceQueue set_onceQueue].
    by rewrite <- app_assoc.
Qed.

(** A run of invocations of a recorder whose behaviors leave the recorder
    alone: who served which invocation, and what the run leaves. *)
Lemma invoke_all_served n a argss :
  ∀ (h : Heap) nd cs rs os h',
    h !! a = Some nd → node_log nd = Some (cs, rs) →
    Forall (λ f, is_function f = true) (onceQueue nd) →
    Forall (quiet ftab n a) (onceQueue nd) → quiet ftab n a (impl nd) →
    invoke_all ftab (S n) a argss h = Some (os, h') →
    (∀ i, (i < length argss)%nat →
       served_by ftab n a h argss os i (default (impl nd) (onceQueue nd !! i))) ∧
    ∃ nd', h' !! a = Some nd' ∧
           onceQueue nd' = drop (length argss) (onceQueue nd) ∧ impl nd' = impl nd ∧
           node_log nd' = Some (cs ++ (VArr <$> argss), rs ++ (result_entry <$> os)) ∧
           length os = length argss.
Proof.
  induction argss as [|args rest IH]; intros h nd cs rs os h' Ha Hlog Hfun Qq Qi Hall.
  - injection Hall as <- <-. split; [intros i Hi; simpl in Hi; lia|].
    exists nd. rewrite drop_0. simpl. by rewrite !app_nil_r.
  - cbn [invoke_all] in Hall.
    destruct (call ftab (S n) (VMock a) args h) as [[o hx]|] eqn:Ec; [|discriminate].
    cbn [mbind option_bind] in Hall.
    destruct (invoke_all ftab (S n) a rest hx) as [[os' hy]|] eqn:Er; [|discriminate].
    cbn [mbind option_bind] in Hall. injection Hall as <- <-.
    destruct (begin_call_spec a args h nd cs rs Ha Hlog) as (nd1 & Hb & _).
    pose proof Ec as Ec'. cbn [call] in Ec'. unfold fn in Ec'. rewrite Hb in Ec'.
    cbn [mbind option_bind] in Ec'.
    destruct (if truthy (toCall_of nd) then call ftab n (toCall_of nd) args (<[a := nd1]> h)
              else Some (Return VUndef, <[a := nd1]> h)) as [[o' h2]|] eqn:Erun;
      [|discriminate].
    assert (Hsame : h2 !! a = <[a := nd1]> h !! a).
    { destruct (truthy (toCall_of nd)).
      - eapply (quiet_toCall n a nd Qi Qq); [|exact Erun].
        rewrite (lookup_insert_node h a nd nd1 Ha). by eexists.
      - by injection Erun as <- <-. }
    destruct (invoke_step n a args h h2 nd cs rs o' Ha Hlog) as (nd' & Hc & Hx & Hl & Hq' & Hi').
    { intros h1 Hb'. rewrite Hb in Hb'. injection Hb' as <-. by split. }
    rewrite Hc in Ec. injection Ec as <- <-.
    assert (Hfun' : Forall (λ f, is_function f = true) (onceQueue nd')).
    { rewrite Hq'. destruct (onceQueue nd); [done | by inversion Hfun]. }
    assert (Qq' : Forall (quiet ftab n a) (onceQueue nd')).
    { rewrite Hq'. destruct (onceQueue nd); [done | by inversion Qq]. }
    assert (Qi' : quiet ftab n a (impl nd')) by by rewrite Hi'.
    destruct (IH _ nd' _ _ _ _ Hx Hl Hfun' Qq' Qi' Er)
      as (Hserved & ndf & Hf & Qf & If & Lf & Hlen).
    split.
    + intros [|i] Hi.
      * exists args, o', h, (<[a := nd1]> h).
        split; [done|]. split; [done|]. split; [done|].
        rewrite <- (toCall_of_front nd Hfun). split; [done|].
        destruct (truthy (toCall_of nd)); [by eexists | by injection Erun as <- _].
      * simpl in Hi.
        destruct (Hserved i ltac:(lia)) as (args' & o2 & hi & hb & A1 & A2 & A3 & A4 & A5).
        assert (Hnext : default (impl nd') (onceQueue nd' !! i)
                        = default (impl nd) (onceQueue nd !! S i)).
        { rewrite Hi', Hq'. by destruct (onceQueue nd). }
        rewrite Hnext in A4, A5.
        exists args', o2, hi, hb.
        split; [exact A1|]. split; [exact A2|]. split; [|by split].
        cbn [take invoke_all]. rewrite Hc. cbn [mbind option_bind]. by rewrite A3.
    + exists ndf. split; [done|]. split.
      { rewrite Qf, Hq'. destruct (onceQueue nd); simpl; [by rewrite drop_nil | done]. }
      split; [by rewrite If|]. split.
      { rewrite Lf. by rewrite !fmap_cons, <- !app_assoc. }
      simpl. by rewrite Hlen.
Qed.

(** C1 (as amended): on a recorder whose behaviors leave the recorder
    itself alone, the functions given to [mockImplementationOnce] are
    consumed first in, first out, each serving exactly one invocation, and
    every invocation after them is served by the persistent behavior (or
    returns [undefined] when there is none). Calling
    [mockImplementationOnce] once for each of [fs] on a recorder with an
    empty queue queues them in this order; in any run of invocations that
    follows, invocation [i] is served by [fs !! i] when there is one and by
    the persistent behavior otherwise; afterwards the queue holds what was
    not consumed, the persistent behavior is as before, and both logs have
    grown by the calls and the outcomes of the run, in order. *)
Theorem once_queue_is_fifo n a (h : Heap) nd cs rs fs argss os h' :
  h !! a = Some nd →
  node_log nd = Some (cs, rs) →
  onceQueue nd = [] →
  Forall (λ f, is_function f = true) fs →
  Forall (quiet ftab n a) fs →
  quiet ftab n a (impl nd) →
  invoke_all ftab (S n) a argss (<[a := set_onceQueue fs nd]> h) = Some (os, h') →
  enqueue_all ftab (S n) a fs h = Some (<[a := set_onceQueue fs nd]> h) ∧
  (∀ i, (i < length argss)%nat →
     served_by ftab n a (<[a := set_onceQueue fs nd]> h) argss os i
               (default (impl nd) (fs !! i))) ∧
  ∃ nd', h' !! a = Some nd' ∧
         onceQueue nd' = drop (length argss) fs ∧ impl nd' = impl nd ∧
         node_log nd' = Some (cs ++ (VArr <$> argss), rs ++ (result_entry <$> os)) ∧
         length os = length argss.
Proof.
  intros Ha Hlog Hq Hfun Qq Qi Hall. split.
  { rewrite (enqueue_all_spec n a fs h nd Ha). by rewrite Hq. }
  apply (invoke_all_served n a argss _ (set_onceQueue fs nd) cs rs os h'); try done.
  by apply (lookup_insert_node h a nd).
Qed.


(** C2 (as amended): take any sequence of invocations of a recorder whose
    behaviors (the persistent one and the queued ones) leave the recorder
    itself as they found it. When the invocations all end, returning or
    throwing, the call log and the outcome log have each grown by exactly
    the number of invocations; from empty logs both have that length, and
    from logs of equal length they have equal length after each
    invocation. *)
Theorem logs_grow_by_one_per_invocation n a argss :
  ∀ (h : Heap) nd cs rs os h',
    h !! a = Some nd → node_log nd = Some (cs, rs) →
    quiet ftab n a (impl nd) → Forall (quiet ftab n a) (onceQueue nd) →
    invoke_all ftab (S n) a argss h = Some (os, h') →
    ∃ cs' rs', log_at h' a = Some (cs', rs') ∧
               length cs' = (length cs + length argss)%nat ∧
               length rs' = (length rs + length argss)%nat ∧
               length os = length argss.
Proof.
  induction argss as [|args rest IH]; intros h nd cs rs os h' Ha Hlog Qi Qq Hall.
  - injection Hall as <- <-. exists cs, rs. unfold log_at. rewrite Ha. simpl.
    repeat split; [done | lia | lia].
  - cbn [invoke_all] in Hall.
    destruct (call ftab (S n) (VMock a) args h) as [[o hx]|] eqn:Ec; [|discriminate].
    cbn [mbind option_bind] in Hall.
    destruct (invoke_all ftab (S n) a rest hx) as [[os' hy]|] eqn:Er; [|discriminate].
    cbn [mbind option_bind] in Hall. injection Hall as <- <-.
    destruct (begin_call_spec a args h nd cs rs Ha Hlog) as (nd1 & Hb & _).
    pose proof Ec as Ec'. cbn [call] in Ec'. unfold fn in Ec'. rewrite Hb in Ec'.
    cbn [mbind option_bind] in Ec'.
    destruct (if truthy (toCall_of nd) then call ftab n (toCall_of nd) args (<[a := nd1]> h)
              else Some (Return VUndef, <[a := nd1]> h)) as [[o' h2]|] eqn:Erun;
      [|discriminate].
    assert (Hsame : h2 !! a = <[a := nd1]> h !! a).
    { destruct (truthy (toCall_of nd)).
      - eapply (quiet_toCall n a nd Qi Qq); [|exact Erun].
        rewrite (lookup_insert_node h a nd nd1 Ha). by eexists.
      - by injection Erun as <- <-. }
    destruct (invoke_step n a args h h2 nd cs rs o' Ha Hlog) as (nd' & Hc & Hx & Hl & Hq' & Hi').
    { intros h1 Hb'. rewrite Hb in Hb'. injection Hb' as <-. by split. }
    rewrite Hc in Ec. injection Ec as <- <-.
    assert (Qi' : quiet ftab n a (impl nd')) by by rewrite Hi'.
    assert (Qq' : Forall (quiet ftab n a) (onceQueue nd')).
    { rewrite Hq'. destruct (onceQueue nd); [done | by inversion Qq]. }
    destruct (IH _ nd' _ _ _ _ Hx Hl Qi' Qq' Er) as (cs' & rs' & Hl' & Hc' & Hr' & Ho').
    exists cs', rs'. rewrite !length_app in Hc', Hr'. simpl in *.
    repeat split; [done | lia | lia | lia].
Qed.

End Recorder.

(** ** The recorder on concrete runs *)

(** The default behavior of a generated stand-in allocates a new node and
    touches nothing else. *)
Lemma nested_quiet ftab n a d : quiet ftab n a (VNested d).
Proof.
  intros args h o h' [nd Ha] Hc. destruct n as [|n]; [discriminate|].
  cbn [call] in Hc. unfold createMock in Hc.
  destruct (MAX_DEPTH <? d + 1)%Z; injection Hc as <- <-; [done|].
  apply lookup_app_l. by eapply lookup_lt_Some.
Qed.

(** A test function that only returns or throws answers the same in every
    heap. *)
Lemma constant_answers n a id own args o :
  (example_ftab id args = match o with Return v => PRet v | Throw e => PThrow e end) →
  answers example_ftab (S n) a (VFun id own) args o.
Proof.
  intros E h _. exists h. cbn [call]. rewrite E. by destruct o.
Qed.

(** A test function that only returns or throws leaves every recorder
    alone. *)
Lemma constant_quiet n a id own :
  (∀ args, ∃ o, example_ftab id args
                = match o with Return v => PRet v | Throw e => PThrow e end) →
  quiet example_ftab n a (VFun id own).
Proof.
  intros Hb args h o h' _ Hc. destruct n as [|n]; [discriminate|].
  cbn [call] in Hc. destruct (Hb args) as [o' E]. rewrite E in Hc.
  destruct o'; simpl in Hc; unfold ret, throw in Hc; by injection Hc as <- <-.
Qed.

Lemma once_queue_is_fifo_witness :
  enqueue_all example_ftab 2 0 [VFun 3 []; VFun 4 []] fresh_heap = Some fifo_heap ∧
  (∀ i, (i < length [[VStr "a"]; [VStr "b"]; [VStr "c"]])%nat →
     served_by example_ftab 1 0 fifo_heap
       [[VStr "a"]; [VStr "b"]; [VStr "c"]]
       [Return (VStr "first"); Return (VStr "second"); Return (VMock 1)] i
       (default (impl fresh_node) ([VFun 3 []; VFun 4 []] !! i))) ∧
  ∃ nd', fifo_final_heap !! 0%nat = Some nd' ∧
         onceQueue nd' = drop (length [[VStr "a"]; [VStr "b"]; [VStr "c"]])
                              [VFun 3 []; VFun 4 []] ∧
         impl nd' = impl fresh_node ∧
         node_log nd'
           = Some ([] ++ (VArr <$> [[VStr "a"]; [VStr "b"]; [VStr "c"]]),
                   [] ++ (result_entry <$> [Return (VStr "first"); Return (VStr "second");
                                            Return (VMock 1)])) ∧
         length [Return (VStr "first"); Return (VStr "second"); Return (VMock 1)]
         = length [[VStr "a"]; [VStr "b"]; [VStr "c"]].
Proof.
  apply (once_queue_is_fifo example_ftab 1 0 fresh_heap fresh_node [] []
           [VFun 3 []; VFun 4 []] [[VStr "a"]; [VStr "b"]; [VStr "c"]]
           [Return (VStr "first"); Return (VStr "second"); Return (VMock 1)]
           fifo_final_heap).
  - reflexivity.
  - reflexivity.
  - reflexivity.
  - repeat constructor.
  - repeat constructor; apply constant_quiet; intros;
      [by exists (Return (VStr "first")) | by exists (Return (VStr "second"))].
  - apply nested_quiet.
  - vm_compute. reflexivity.
Defined.

(** C1 fails as stated: a queued behavior that resets its own recorder.
    With [f1 = () => { rec.mockReset(); return "first" }] and [f2] queued
    behind it, three invocations return what [f1] returns and then twice
    what the persistent behavior returns: [f2] is dropped from the queue
    while [f1] runs and serves no invocation. *)
Lemma resetting_behavior_drops_the_queue :
  ∃ h0 h',
    enqueue_all reset_ftab 1 0 [VFun 0 []; VFun 4 []] (recorder_heap (VFun 5 []))
      = Some h0 ∧
    invoke_all reset_ftab 5 0 [[]; []; []] h0
      = Some ([Return (VStr "first"); Return (VStr "always"); Return (VStr "always")], h').
Proof. eexists _, _. split; [vm_compute; reflexivity|]. vm_compute. reflexivity. Qed.

Lemma logs_grow_by_one_per_invocation_witness :
  ∃ os h',
    invoke_all example_ftab 2 0 [[VStr "1"]; []; [VNum 3]] fresh_heap = Some (os, h') ∧
    ∃ cs' rs', log_at h' 0 = Some (cs', rs') ∧
               length cs' = (0 + 3)%nat ∧ length rs' = (0 + 3)%nat ∧
               length os = 3%nat.
Proof.
  eexists _, _. split; [vm_compute; reflexivity|].
  eapply (logs_grow_by_one_per_invocation example_ftab 1 0 [[VStr "1"]; []; [VNum 3]]
            fresh_heap (createBaseMock 0 (VNested 0) 0) [] []).
  - reflexivity.
  - vm_compute. reflexivity.
  - apply nested_quiet.
  - constructor.
  - vm_compute. reflexivity.
Defined.

(** C2 fails as stated: a behavior that clears its own recorder. After the
    single invocation has returned, the call log is empty and the outcome
    log has one entry. *)
Lemma clearing_behavior_unbalances_logs :
  ∃ h1 h2 cs rs,
    call example_ftab 1 (VMethod 0 MImplementation) [VFun 0 []] fresh_heap
      = Some (Return (VBase 0), h1) ∧
    call example_ftab 4 (VMock 0) [] h1 = Some (Return (VNum 7), h2) ∧
    log_at h2 0 = Some (cs, rs) ∧ length cs = 0%nat ∧ length rs = 1%nat.
Proof.
  eexists _, _, _, _. split; [vm_compute; reflexivity|].
  split; [vm_compute; reflexivity|]. split; [vm_compute; reflexivity|]. done.
Qed.

(** C3 fails as stated: a behavior that returns the lengths of the two
    logs as it sees them. On a recorder with empty logs, invoked with
    ["x"], it sees a call log of length 1, which holds the entry of the
    invocation that runs it, and an outcome log of length 0. *)
Lemma behavior_sees_its_own_call :
  ∃ h1 h2,
    log_at fresh_heap 0 = Some ([], []) ∧
    call example_ftab 1 (VMethod 0 MImplementation) [VFun 1 []] fresh_heap
      = Some (Return (VBase 0), h1) ∧
    call example_ftab 4 (VMock 0) [VStr "x"] h1
      = Some (Return (VArr [VNum 1; VNum 0]), h2).
Proof.
  eexists _, _. split; [vm_compute; reflexivity|].
  split; [vm_compute; reflexivity|]. vm_compute. reflexivity.
Qed.

Lemma behavior_sees_call_logged_outcome_pending_witness :
  ∃ h1, begin_call 0 [VStr "x"] fresh_heap
          = Some (toCall_of (createBaseMock 0 (VNested 0) 0), h1) ∧
        log_at h1 0 = Some ([] ++ [VArr [VStr "x"]], []) ∧
        ∀ o h2 cs2 rs2,
          (if truthy (toCall_of (createBaseMock 0 (VNested 0) 0))
           then call example_ftab 1 (toCall_of (createBaseMock 0 (VNested 0) 0)) [VStr "x"] h1
           else Some (Return VUndef, h1)) = Some (o, h2) →
          log_at h2 0 = Some (cs2, rs2) →
          ∃ h3, call example_ftab 2 (VMock 0) [VStr "x"] fresh_heap = Some (o, h3) ∧
                log_at h3 0 = Some (cs2, rs2 ++ [result_entry o]).
Proof.
  apply (behavior_sees_call_logged_outcome_pending example_ftab 1 0 [VStr "x"]
           fresh_heap (createBaseMock 0 (VNested 0) 0) [] []).
  - reflexivity.
  - vm_compute. reflexivity.
Defined.

Lemma invocation_records_and_delivers_outcome_witness :
  ∃ h3, call example_ftab 2 (VMock 0) [VNum 1] (recorder_heap (VFun 2 []))
          = Some (Throw (VStr "boom"), h3) ∧
        log_at h3 0 = Some ([VArr [VNum 1]], [] ++ [result_entry (Throw (VStr "boom"))]) ∧
        result_entry (Throw (VStr "boom"))
          = VObj [("type", VStr "throw"); ("value", VStr "boom")].
Proof.
  eapply (invocation_records_and_delivers_outcome example_ftab 1 0 [VNum 1]
            (recorder_heap (VFun 2 [])) _ _ (VFun 2 []) (Throw (VStr "boom"))).
  - vm_compute. reflexivity.
  - reflexivity.
  - vm_compute. reflexivity.
  - vm_compute. reflexivity.
Defined.

Arguments passthrough : simpl never.
Arguments language_member : simpl never.
Arguments library_name : simpl never.

(** ** isMock and getCallInfo *)

Lemma typeof_function v : String.eqb (typeof v) "function" = is_function v.
Proof. by destruct v. Qed.

Lemma typeof_object m : String.eqb (typeof m) "object" = is_object m.
Proof. by destruct m. Qed.

(** Reading [value.mock] changes nothing, and on a function it does not
    throw. *)
Lemma get_prop_mock_pure v (h h' : Heap) r :
  get_prop v (PStr "mock") h = Some (r, h') →
  h' = h ∧ (is_function v = true → ∃ m, r = Return m).
Proof.
  unfold get_prop, handler_get, target_get.
  change (language_member (PStr "mock")) with false.
  change (library_name (PStr "mock")) with true.
  change (passthrough (PStr "mock")) with true.
  destruct v; cbn [is_function]; unfold ret, throw, stuck; intros E;
    repeat (case_match; simpl in * ); simplify_option_eq;
    (split; [done|]); intros; try discriminate; eauto.
Qed.

(** Reading one of the library's member names on an [object]-typed value. *)
Lemma get_prop_field_pure m k (h h' : Heap) r :
  is_object m = true → language_member (PStr k) = false → library_name (PStr k) = true →
  get_prop m (PStr k) h = Some (r, h') →
  h' = h ∧
  match m with
  | VNull => ∃ msg, r = Throw (VTypeError msg)
  | VObj fs => r = Return (obj_get fs k)
  | _ => ∃ x, r = Return x ∧ (k ≠ "length" → x = VUndef)
  end.
Proof.
  intros Ho Hl Hn. destruct m; try discriminate; unfold get_prop; rewrite ?Hl, ?Hn;
    unfold ret, throw, stuck, obj_get; intros E;
    repeat (case_match; simpl in * ); simplify_eq; (split; [done|]); eauto.
  eexists. split; [done|]. congruence.
Qed.

Lemma has_prop_mock_pure v (h h' : Heap) r :
  is_function v = true →
  has_prop v (PStr "mock") h = Some (r, h') → h' = h ∧ ∃ b, r = Return b.
Proof.
  intros Hf. unfold has_prop. rewrite Hf.
  change (language_member (PStr "mock")) with false.
  change (library_name (PStr "mock")) with true.
  destruct v; try discriminate; simpl; unfold ret, stuck; intros E;
    repeat (case_match; simpl in * ); simplify_option_eq; eauto.
Qed.

(** The three ways [isMock] ends; none of them changes the heap. *)
Lemma isMock_cases v (h h' : Heap) r :
  isMock v h = Some (r, h') →
  h' = h ∧
  ((r = Return true ∧
    ∃ fs cs rs, get_prop v (PStr "mock") h = Some (Return (VObj fs), h) ∧
                obj_get fs "calls" = VArr cs ∧ obj_get fs "results" = VArr rs)
   ∨ r = Return false
   ∨ ∃ msg, r = Throw (VTypeError msg)).
Proof.
  unfold isMock. rewrite typeof_function.
  destruct (is_function v) eqn:Hf; simpl; [|intros E; unfold ret in E; simplify_eq; eauto].
  unfold bind at 1.
  destruct (has_prop v (PStr "mock") h) as [[rb hb]|] eqn:Hh; [|discriminate].
  destruct (has_prop_mock_pure v h hb rb Hf Hh) as [-> [b ->]].
  destruct b; simpl; [|intros E; unfold ret in E; simplify_eq; eauto].
  unfold bind at 1.
  destruct (get_prop v (PStr "mock") h) as [[rm hm]|] eqn:G; [|discriminate].
  destruct (get_prop_mock_pure v h hm rm G) as [-> Hm]. destruct (Hm Hf) as [m ->].
  rewrite typeof_object.
  destruct (is_object m) eqn:Ho; simpl; [|intros E; unfold ret in E; simplify_eq; eauto].
  unfold bind at 1. rewrite G. unfold bind at 1.
  destruct (get_prop m (PStr "calls") h) as [[rc hc]|] eqn:Gc; [|discriminate].
  destruct (get_prop_field_pure m "calls" h hc rc Ho eq_refl eq_refl Gc) as [-> Hc].
  destruct m; try discriminate.
  - destruct Hc as [msg ->]. intros E; simplify_eq. eauto.
  - destruct Hc as (x & -> & Hx). rewrite (Hx ltac:(discriminate)). simpl.
    intros E; unfold ret in E; simplify_eq; eauto.
  - subst rc. destruct (obj_get fields "calls") eqn:Ecs; simpl;
      try (intros E; unfold ret in E; simplify_eq; eauto; fail).
    unfold bind at 1. rewrite G. unfold bind at 1.
    destruct (get_prop (VObj fields) (PStr "results") h) as [[rr hr]|] eqn:Gr; [|discriminate].
    destruct (get_prop_field_pure _ "results" h hr rr Ho eq_refl eq_refl Gr) as [-> ->].
    unfold ret. intros E; simplify_eq.
    destruct (obj_get fields "results") eqn:Ers; simpl; eauto 10.
  - destruct Hc as (x & -> & Hx). rewrite (Hx ltac:(discriminate)). simpl.
    intros E; unfold ret in E; simplify_eq; eauto.
  - destruct Hc as (x & -> & Hx). rewrite (Hx ltac:(discriminate)). simpl.
    intros E; unfold ret in E; simplify_eq; eauto.
Qed.

Lemma get_prop_obj fs k (h : Heap) :
  language_member (PStr k) = false →
  get_prop (VObj fs) (PStr k) h = Some (Return (obj_get fs k), h).
Proof.
  intros Hl. unfold get_prop, obj_get. destruct (assoc_get fs k); simpl; [done|].
  by rewrite Hl.
Qed.

Lemma last_or_typed xs dflt :
  Forall (λ x, truthy x = true) xs → last_or xs dflt = default dflt (last xs).
Proof.
  intros Hall. unfold last_or. destruct (last xs) as [x|] eqn:E; simpl; [|done].
  apply last_Some_elem_of in E. rewrite Forall_forall in Hall. by rewrite (Hall x E).
Qed.

Lemma isMock_nonfunction v (h : Heap) :
  is_function v = false → isMock v h = Some (Return false, h).
Proof. intros H. unfold isMock. by rewrite typeof_function, H. Qed.

(** Where [isMock] answers [true]: exactly on the functions whose [mock]
    member is an object with an array under [calls] and an array under
    [results]. *)
Lemma isMock_true_iff v (h : Heap) :
  isMock v h = Some (Return true, h) ↔
  is_function v = true ∧
  ∃ fs cs rs, get_prop v (PStr "mock") h = Some (Return (VObj fs), h) ∧
              obj_get fs "calls" = VArr cs ∧ obj_get fs "results" = VArr rs.
Proof.
  split.
  - intros Hm. split.
    + destruct (is_function v) eqn:Hf; [done|].
      rewrite (isMock_nonfunction v h Hf) in Hm. discriminate.
    + destruct (isMock_cases v h h (Return true) Hm) as [_ [[_ H]|[H|[msg H]]]];
        [done | discriminate | discriminate].
  - intros [Hf (fs & cs & rs & G & Ec & Er)].
    assert (Hh : has_prop v (PStr "mock") h = Some (Return true, h)).
    { revert G. unfold has_prop, get_prop, handler_get, target_get. rewrite Hf.
      change (language_member (PStr "mock")) with false.
      change (library_name (PStr "mock")) with true.
      change (passthrough (PStr "mock")) with true.
      destruct v; try discriminate; cbn [negb orb is_function is_object];
        cbv beta iota; unfold ret, obj_get; intros G;
        repeat (case_match; simpl in * ); simplify_option_eq; try done.
      all: match goal with
           | |- context [assoc_get ?l ?k] =>
               destruct (assoc_get l k); simpl in *; [done | discriminate]
           end. }
    unfold isMock. rewrite typeof_function, Hf. cbn [negb].
    unfold bind at 1. rewrite Hh. cbn [negb].
    unfold bind at 1. rewrite G. rewrite typeof_object. cbn [is_object negb].
    unfold bind at 1. rewrite G. unfold bind at 1.
    rewrite (get_prop_obj fs "calls" h eq_refl), Ec. cbn [is_array negb].
    unfold bind at 1. rewrite G. unfold bind at 1.
    rewrite (get_prop_obj fs "results" h eq_refl), Er. done.
Qed.

(** C7, at the input where the code departs from it: a function whose
    [mock] member is [null] passes [typeof value.mock === 'object'], and the
    read of [value.mock.calls] then throws a TypeError instead of [isMock]
    answering [false]. The same happens for a generated stand-in after
    [rec.mock = null]. *)
Theorem isMock_throws_on_null_bookkeeping id (h : Heap) :
  isMock (VFun id [("mock", VNull)]) h
    = Some (Throw (VTypeError "Cannot read properties of undefined or null"), h) ∧
  ∃ h1, handler_set 0 (PStr "mock") VNull fresh_heap = Some h1 ∧
        isMock (VMock 0) h1
          = Some (Throw (VTypeError "Cannot read properties of undefined or null"), h1).
Proof.
  split; [reflexivity|]. eexists. split; [vm_compute; reflexivity|].
  vm_compute. reflexivity.
Qed.

(** The bookkeeping object that [isMock] has accepted on a stand-in or on
    its recorder holds the two logs of the recorder. *)
Lemma mock_object_node_log a v (h : Heap) fs cs rs :
  v = VMock a ∨ v = VBase a →
  get_prop v (PStr "mock") h = Some (Return (VObj fs), h) →
  obj_get fs "calls" = VArr cs → obj_get fs "results" = VArr rs →
  log_at h a = Some (cs, rs).
Proof.
  intros Hv G Ec Er. unfold log_at, node_log.
  assert (Hm : ∃ nd, h !! a = Some nd ∧
                     default VUndef (assoc_get (props nd) (PStr "mock")) = VObj fs).
  { destruct Hv as [-> | ->]; revert G; unfold get_prop, handler_get, target_get;
      change (language_member (PStr "mock")) with false;
      change (passthrough (PStr "mock")) with true;
      destruct (h !! a) as [nd|]; simpl; intros G; simplify_eq; eauto. }
  destruct Hm as (nd & -> & Hm). simpl.
  destruct (assoc_get (props nd) (PStr "mock")) as [m|]; simpl in Hm; [|discriminate].
  subst m. by rewrite Ec, Er.
Qed.

(** C8: [getCallInfo] fails with a TypeError exactly when [isMock] does not
    answer [true] for its argument. When it does, the argument is a function
    whose [mock] member is an object [fs] holding an array [cs] under [calls]
    and an array [rs] under [results] (for a stand-in or its recorder: the
    two logs of the recorder), and [getCallInfo] returns, without changing
    anything, the number of entries of [cs], [cs] itself, [rs] itself, and
    the last entry of each, with [[]] and [{type: 'return', value:
    undefined}] standing in when a log is empty (the entries of the logs
    being call tuples and outcome records, which are truthy). *)
Theorem getCallInfo_checks_then_snapshots v (h h' : Heap) r :
  isMock v h = Some (r, h') →
  match r with
  | Return true =>
      ∃ fs cs rs,
        get_prop v (PStr "mock") h = Some (Return (VObj fs), h) ∧
        obj_get fs "calls" = VArr cs ∧ obj_get fs "results" = VArr rs ∧
        (∀ a, v = VMock a ∨ v = VBase a → log_at h a = Some (cs, rs)) ∧
        ∃ info,
          getCallInfo v h = Some (Return info, h) ∧
          callCount info = Z.of_nat (length cs) ∧
          calls info = cs ∧ results info = rs ∧
          (Forall (λ c, truthy c = true) cs →
             lastCall info = default (VArr []) (last cs)) ∧
          (Forall (λ x, truthy x = true) rs →
             lastResult info
               = default (VObj [("type", VStr "return"); ("value", VUndef)]) (last rs))
  | _ => ∃ msg, getCallInfo v h = Some (Throw (VTypeError msg), h)
  end ∧
  (∀ info h1, getCallInfo v h = Some (Return info, h1) → r = Return true).
Proof.
  intros Hm. destruct (isMock_cases v h h' r Hm) as [-> Hc].
  assert (Hg : getCallInfo v h =
    match r with
    | Return ok =>
        (if negb ok
         then throw (VTypeError "Argument must be a mock function")
         else
           let* cs := mock_array v "calls" in
           let* rs := mock_array v "results" in
           ret (mkCallInfo (Z.of_nat (length cs)) cs rs
                  (last_or cs (VArr []))
                  (last_or rs (result_entry (Return VUndef))))) h
    | Throw e => Some (Throw e, h)
    end).
  { unfold getCallInfo, bind at 1. by rewrite Hm. }
  rewrite Hg. clear Hg.
  destruct Hc as [[-> (fs & cs & rs & G & Ec & Er)] | [-> | [msg ->]]].
  - split; [|done]. simpl. exists fs, cs, rs.
    assert (Hcs : mock_array v "calls" h = Some (Return cs, h)).
    { unfold mock_array, bind. rewrite G, (get_prop_obj fs "calls" h eq_refl), Ec. done. }
    assert (Hrs : mock_array v "results" h = Some (Return rs, h)).
    { unfold mock_array, bind. rewrite G, (get_prop_obj fs "results" h eq_refl), Er. done. }
    split; [done|]. split; [done|]. split; [done|]. split.
    { intros a Hv. by eapply mock_object_node_log. }
    eexists. split.
    { unfold bind. rewrite Hcs, Hrs. reflexivity. }
    simpl. repeat split; try done; apply last_or_typed.
  - split; [simpl; by eexists | discriminate].
  - split; [by eexists | discriminate].
Qed.

Lemma getCallInfo_checks_then_snapshots_witness :
  (∃ fs cs rs,
     get_prop (VMock 0) (PStr "mock") called_heap = Some (Return (VObj fs), called_heap) ∧
     obj_get fs "calls" = VArr cs ∧ obj_get fs "results" = VArr rs ∧
     (∀ a, VMock 0 = VMock a ∨ VMock 0 = VBase a → log_at called_heap a = Some (cs, rs)) ∧
     ∃ info,
       getCallInfo (VMock 0) called_heap = Some (Return info, called_heap) ∧
       callCount info = Z.of_nat (length cs) ∧
       calls info = cs ∧ results info = rs ∧
       (Forall (λ c, truthy c = true) cs →
          lastCall info = default (VArr []) (last cs)) ∧
       (Forall (λ x, truthy x = true) rs →
          lastResult info
            = default (VObj [("type", VStr "return"); ("value", VUndef)]) (last rs))) ∧
  (∀ info h1, getCallInfo (VMock 0) called_heap = Some (Return info, h1) →
     Return true = Return true).
Proof.
  apply (getCallInfo_checks_then_snapshots (VMock 0) called_heap called_heap (Return true)).
  vm_compute. reflexivity.
Defined.

(** The snapshot of the stand-in that was called once with ["1"]: one call,
    the tuple [["1"]], the outcome record of the returned child, and these
    two as the last call and the last result. *)
Lemma getCallInfo_of_called_standin :
  log_at called_heap 0
    = Some ([VArr [VStr "1"]], [VObj [("type", VStr "return"); ("value", VMock 1)]]) ∧
  getCallInfo (VMock 0) called_heap
    = Some (Return (mkCallInfo 1 [VArr [VStr "1"]]
                      [VObj [("type", VStr "return"); ("value", VMock 1)]]
                      (VArr [VStr "1"])
                      (VObj [("type", VStr "return"); ("value", VMock 1)])),
            called_heap).
Proof. split; vm_compute; reflexivity. Qed.

(** ** The proxy handler *)

Lemma set_props_twice p v nd :
  set_props (λ ps, assoc_set ps p v) (set_props (λ ps, assoc_set ps p v) nd)
  = set_props (λ ps, assoc_set ps p v) nd.
Proof. unfold set_props. simpl. by rewrite assoc_set_twice. Qed.

Lemma target_get_set nd p v :
  language_member p = false →
  target_get (set_props (λ ps, assoc_set ps p v) nd) p = Some v.
Proof. intros H. unfold target_get. rewrite H. simpl. by rewrite assoc_get_set_eq. Qed.

(** C5 (as amended): on a stand-in, for a member name that the [get] trap
    does not hand to the target, a write of any value other than
    [undefined] followed by a read gives back exactly the written value and
    generates nothing (the heap after the read is the heap after the
    write); and a read followed by a read gives the same value, the second
    read changing nothing. *)
Theorem written_member_reads_back a (h : Heap) nd s v :
  h !! a = Some nd →
  passthrough (PStr s) = false →
  language_member (PStr s) = false →
  v ≠ VUndef →
  (∃ h1, handler_set a (PStr s) v h = Some h1 ∧
         handler_get a (PStr s) h1 = Some (v, h1)) ∧
  (∀ v1 h1, handler_get a (PStr s) h = Some (v1, h1) →
            handler_get a (PStr s) h1 = Some (v1, h1)).
Proof.
  intros Ha Hp Hl Hv. split.
  - exists (<[a := set_props (λ ps, assoc_set ps (PStr s) v) nd]> h). split.
    + unfold handler_set, target_set. rewrite Ha, Hl. done.
    + unfold handler_get. rewrite (lookup_insert_node h a nd _ Ha). simpl.
      rewrite (target_get_set nd (PStr s) v Hl). simpl. rewrite Hp.
      by destruct v.
  - intros v1 h1. unfold handler_get at 1. rewrite Ha. simpl.
    unfold target_get at 1. rewrite Hl. simpl. rewrite Hp.
    destruct (is_undefined (default VUndef (assoc_get (props nd) (PStr s)))) eqn:Eu; simpl.
    + unfold createMock, target_set. rewrite Hl.
      destruct (MAX_DEPTH <? depth nd + 1)%Z eqn:Ed; simpl; intros E;
        injection E as <- <-.
      * unfold handler_get. rewrite (lookup_insert_node h a nd _ Ha). simpl.
        rewrite (target_get_set nd (PStr s) VUndef Hl). simpl. rewrite Hp.
        unfold createMock, target_set. simpl. rewrite Ed, Hl. simpl.
        by rewrite set_props_twice, list_insert_insert_eq.
      * assert (Hlt : (a < length (h ++ [createBaseMock (length h) (VNested (depth nd + 1)) (depth nd + 1)]))%nat).
        { rewrite length_app. apply lookup_lt_Some in Ha. lia. }
        unfold handler_get. rewrite (list_lookup_insert_eq _ _ _ Hlt). simpl.
        rewrite (target_get_set nd (PStr s) _ Hl). simpl. by rewrite Hp.
    + intros E. injection E as <- <-.
      unfold handler_get. rewrite Ha. simpl. unfold target_get. rewrite Hl. simpl.
      by rewrite Hp, Eu.
Qed.

Lemma written_member_reads_back_witness :
  (∃ h1, handler_set 0 (PStr "user") (VObj [("id", VStr "1")]) fresh_heap = Some h1 ∧
         handler_get 0 (PStr "user") h1 = Some (VObj [("id", VStr "1")], h1)) ∧
  (∀ v1 h1, handler_get 0 (PStr "user") fresh_heap = Some (v1, h1) →
            handler_get 0 (PStr "user") h1 = Some (v1, h1)).
Proof.
  apply (written_member_reads_back 0 fresh_heap (createBaseMock 0 (VNested 0) 0)
           "user" (VObj [("id", VStr "1")])).
  - reflexivity.
  - reflexivity.
  - reflexivity.
  - discriminate.
Defined.

(** C5 fails as stated: after [rec.x = undefined], reading [rec.x] does not
    give [undefined] back but a newly generated stand-in. *)
Lemma undefined_write_is_regenerated :
  passthrough (PStr "x") = false ∧
  ∃ h1 h2, handler_set 0 (PStr "x") VUndef fresh_heap = Some h1 ∧
           handler_get 0 (PStr "x") h1 = Some (VMock 1, h2) ∧
           VMock 1 ≠ VUndef.
Proof.
  split; [reflexivity|]. eexists _, _.
  split; [vm_compute; reflexivity|]. split; [vm_compute; reflexivity | discriminate].
Qed.

(** C6: past the maximum depth [createMock] returns [undefined] and
    allocates nothing. It is a total function for every depth (it has no
    failing case and calls nothing), so the default behavior of a stand-in
    at the last depth returns the placeholder, and reading a member that its
    cache does not hold gives the placeholder as well. *)
Theorem createMock_past_max_depth d (h : Heap) :
  (MAX_DEPTH < d)%Z →
  createMock d h = (VUndef, h) ∧
  (∀ ftab n args,
     call ftab (S n) (VNested (d - 1)) args h = Some (Return VUndef, h)) ∧
  (∀ a nd s,
     h !! a = Some nd → depth nd = (d - 1)%Z →
     passthrough (PStr s) = false → language_member (PStr s) = false →
     assoc_get (props nd) (PStr s) = None →
     fst <$> handler_get a (PStr s) h = Some VUndef).
Proof.
  intros Hd.
  assert (E : ∀ h' : Heap, createMock d h' = (VUndef, h')).
  { intros h'. unfold createMock. by rewrite (proj2 (Z.ltb_lt _ _) Hd). }
  split; [apply E|]. split.
  - intros ftab n args. cbn [call]. replace (d - 1 + 1)%Z with d by lia. by rewrite E.
  - intros a nd s Ha Hdepth Hp Hl Hnone.
    unfold handler_get. rewrite Ha. simpl. unfold target_get, target_set.
    rewrite Hl, Hnone. simpl. rewrite Hp. simpl.
    rewrite Hdepth. replace (d - 1 + 1)%Z with d by lia. by rewrite E.
Qed.

Lemma createMock_past_max_depth_witness :
  createMock 11 (recorder_at_depth (VNested 10) 10) = (VUndef, recorder_at_depth (VNested 10) 10) ∧
  (∀ ftab n args,
     call ftab (S n) (VNested (11 - 1)) args (recorder_at_depth (VNested 10) 10)
       = Some (Return VUndef, recorder_at_depth (VNested 10) 10)) ∧
  (∀ a nd s,
     recorder_at_depth (VNested 10) 10 !! a = Some nd → depth nd = (11 - 1)%Z →
     passthrough (PStr s) = false → language_member (PStr s) = false →
     assoc_get (props nd) (PStr s) = None →
     fst <$> handler_get a (PStr s) (recorder_at_depth (VNested 10) 10) = Some VUndef).
Proof. apply (createMock_past_max_depth 11 (recorder_at_depth (VNested 10) 10)). reflexivity. Defined.

(** Up to the maximum depth a new stand-in is allocated at the next free
    address. *)
Lemma createMock_within_depth d (h : Heap) :
  (d ≤ MAX_DEPTH)%Z →
  createMock d h = (VMock (length h), h ++ [createBaseMock (length h) (VNested d) d]).
Proof. intros Hd. unfold createMock. by rewrite (proj2 (Z.ltb_ge _ _) Hd). Qed.

(** ** Enumeration *)

Lemma string_keys_spec nd s : s ∈ string_keys nd ↔ is_Some (assoc_get (props nd) (PStr s)).
Proof.
  unfold string_keys. rewrite list_elem_of_omap, assoc_get_is_Some, list_elem_of_fmap.
  split.
  - intros [[k v] [Hin Hk]]. simpl in Hk. destruct k; [|discriminate].
    injection Hk as ->. by exists (PStr s, v).
  - intros [[k v] [Hk Hin]]. simpl in Hk. subst k. by exists (PStr s, v).
Qed.

(** Placing the array indices first changes the order of the keys, not the
    keys. *)
Lemma object_keys_string_keys nd s : s ∈ object_keys nd ↔ s ∈ string_keys nd.
Proof.
  unfold object_keys. cbv zeta. rewrite elem_of_app, list_elem_of_fmap, list_elem_of_filter.
  split.
  - intros [[[n s'] [-> Hin]] | [_ ?]]; [|done]. simpl.
    rewrite merge_sort_Permutation in Hin. apply list_elem_of_omap in Hin as (s0 & Hs0 & E).
    destruct (array_index s0); simplify_eq/=. done.
  - intros Hin. destruct (array_index s) as [n|] eqn:E.
    + left. exists (n, s). split; [done|]. rewrite merge_sort_Permutation.
      apply list_elem_of_omap. exists s. rewrite E. done.
    + by right.
Qed.

Lemma object_keys_spec nd s : s ∈ object_keys nd ↔ is_Some (assoc_get (props nd) (PStr s)).
Proof. by rewrite object_keys_string_keys, string_keys_spec. Qed.

(** [createBaseMock] leaves exactly its eleven properties on [fn]. *)
Lemma createBaseMock_keys a dflt d s :
  is_Some (assoc_get (props (createBaseMock a dflt d)) (PStr s)) ↔ s ∈ surface_names.
Proof.
  rewrite assoc_get_is_Some.
  assert (E : (props (createBaseMock a dflt d)).*1 = PStr <$> surface_names) by done.
  rewrite E, list_elem_of_fmap. split.
  - intros (s' & Hs & Hin). by injection Hs as ->.
  - intros Hin. by exists s.
Qed.

Lemma cached_by_passthrough_read s s' :
  passthrough (PStr s') = true → cached_by (ReadMember (PStr s')) = Some s → False.
Proof. intros Hp. unfold cached_by. by rewrite Hp. Qed.

Lemma access_keys a op (h h' : Heap) nd :
  h !! a = Some nd → access a op h = Some h' →
  ∃ nd', h' !! a = Some nd' ∧
         ∀ s, is_Some (assoc_get (props nd') (PStr s)) ↔
              is_Some (assoc_get (props nd) (PStr s)) ∨ cached_by op = Some s.
Proof.
  intros Ha. destruct op as [p|p v]; simpl.
  - unfold handler_get. rewrite Ha. simpl. unfold target_get, target_set.
    destruct (language_member p) eqn:Hl; [discriminate|]. simpl.
    destruct (passthrough p) eqn:Hp.
    { intros E. injection E as <-. exists nd. split; [done|]. intros s.
      split; [by left|]. intros [?|Hc]; [done|]. exfalso.
      destruct p as [s'|s']; [|done]. by eapply cached_by_passthrough_read. }
    destruct p as [s'|s']; simpl.
    { assert (Hc : ∀ s, cached_by (ReadMember (PStr s')) = Some s ↔ s' = s).
      { intros s. unfold cached_by. rewrite Hp. split; congruence. }
      destruct (is_undefined (default VUndef (assoc_get (props nd) (PStr s')))) eqn:Eu; simpl.
      - unfold createMock.
        destruct (MAX_DEPTH <? depth nd + 1)%Z; simpl; intros E; injection E as <-;
          eexists; (split; [apply list_lookup_insert_eq;
                            rewrite ?length_app; apply lookup_lt_Some in Ha; simpl; lia|]);
          intros s; simpl; rewrite assoc_set_is_Some, Hc;
          (split; [intros [E|?]; [right; congruence | by left]
                  | intros [?|E]; [by right | left; congruence]]).
      - intros E. injection E as <-. exists nd. split; [done|]. intros s.
        split; [by left|]. intros [?|E]; [done|]. apply Hc in E as <-.
        destruct (assoc_get (props nd) (PStr s')); [by eexists | done]. }
    { intros E. injection E as <-. exists nd. split; [done|]. intros s.
      split; [by left | by intros [?|?]]. }
  - unfold handler_set. rewrite Ha. simpl. unfold target_set.
    destruct (language_member p); [discriminate|]. simpl.
    intros E. injection E as <-. eexists. split; [by apply (lookup_insert_node h a nd)|].
    intros s. simpl. rewrite assoc_set_is_Some.
    destruct p as [s'|s']; simpl.
    + split; [intros [E|?]; [right; congruence | by left]
             | intros [?|E]; [by right | left; congruence]].
    + split; [intros [E|?]; [done | by left] | intros [?|E]; [by right | done]].
Qed.

Lemma accesses_keys a ops :
  ∀ (h h' : Heap) nd,
    h !! a = Some nd → accesses a ops h = Some h' →
    ∃ nd', h' !! a = Some nd' ∧
           ∀ s, is_Some (assoc_get (props nd') (PStr s)) ↔
                is_Some (assoc_get (props nd) (PStr s)) ∨ s ∈ omap cached_by ops.
Proof.
  induction ops as [|op ops IH]; intros h h' nd Ha; simpl.
  - intros E. injection E as <-. exists nd. split; [done|]. intros s.
    rewrite elem_of_nil. split; [by left | by intros [?|?]].
  - destruct (access a op h) as [hx|] eqn:Ex; [|discriminate]. simpl. intros Hrest.
    destruct (access_keys a op h hx nd Ha Ex) as (ndx & Hx & Kx).
    destruct (IH hx h' ndx Hx Hrest) as (nd' & H' & K').
    exists nd'. split; [done|]. intros s. rewrite K', Kx.
    destruct (cached_by op) as [s'|]; rewrite ?elem_of_cons.
    + split; [intros [[?|E]|?]; [by left | right; left; congruence | by right; right]
             | intros [?|[E|?]]; [by left; left | left; right; congruence | by right]].
    + split; [intros [[?|?]|?]; [by left | done | by right]
             | intros [?|?]; [by left; left | by right]].
Qed.

(** A run of accesses that the model follows touches no member that the
    function object has from the language. *)
Lemma access_modelled a op (h h' : Heap) s :
  access a op h = Some h' → cached_by op = Some s → language_member (PStr s) = false.
Proof.
  destruct op as [p|p v]; simpl.
  - unfold handler_get, target_get. destruct (h !! a) as [nd|]; [|discriminate]. simpl.
    destruct (language_member p) eqn:Hl; [discriminate|]. intros _.
    destruct p as [s'|s']; [|discriminate]. destruct (passthrough (PStr s')); [discriminate|].
    intros E. by injection E as <-.
  - unfold handler_set, target_set. destruct (h !! a) as [nd|]; [|discriminate]. simpl.
    destruct (language_member p) eqn:Hl; [discriminate|]. intros _.
    destruct p as [s'|s']; [|discriminate]. intros E. by injection E as <-.
Qed.

Lemma accesses_modelled a ops :
  ∀ (h h' : Heap) s,
    accesses a ops h = Some h' → s ∈ omap cached_by ops → language_member (PStr s) = false.
Proof.
  induction ops as [|op ops IH]; intros h h' s; simpl.
  - intros _ Hin. by apply elem_of_nil in Hin.
  - destruct (access a op h) as [hx|] eqn:Ex; [|discriminate]. simpl. intros Hrest.
    destruct (cached_by op) as [s'|] eqn:Ec.
    + rewrite elem_of_cons. intros [->|Hin]; [by eapply access_modelled | by eapply IH].
    + by eapply IH.
Qed.

(** The keys the [ownKeys] trap returns for a stand-in, at every point of a
    run of member reads and writes on it: the eleven property names that
    [createBaseMock] puts on every recorder together with the names in the
    cache (the names written so far and the names read so far that the
    [get] trap does not hand to the target). *)
Lemma ownKeys_trap_result d (h h0 h' : Heap) a ops :
  createMock d h = (VMock a, h0) →
  accesses a ops h0 = Some h' →
  ∃ ks, handler_ownKeys a h' = Some ks ∧
        ∀ s, s ∈ ks ↔ s ∈ surface_names ∨ s ∈ omap cached_by ops.
Proof.
  unfold createMock. destruct (MAX_DEPTH <? d)%Z; [discriminate|].
  intros E Hacc. injection E as <- <-.
  assert (Ha : (h ++ [createBaseMock (length h) (VNested d) d]) !! length h
               = Some (createBaseMock (length h) (VNested d) d)).
  { by apply list_lookup_middle. }
  destruct (accesses_keys _ ops _ _ _ Ha Hacc) as (nd' & H' & K').
  exists (object_keys nd'). unfold handler_ownKeys. rewrite H'. split; [done|].
  intros s. by rewrite object_keys_spec, K', createBaseMock_keys.
Qed.

(** C10, where the code departs from it: enumerating the members of a
    stand-in never yields a list of names. At every point of a run of member
    reads and writes on a stand-in from [createMock], the [ownKeys] trap
    returns [Object.keys(target)]: the recorder's eleven property names and
    the cached member names, never [prototype], which the target function
    owns as a non-configurable property. The engine rejects such a trap
    result, so the enumeration ends with a TypeError. *)
Theorem enumerating_a_standin_throws d (h h0 h' : Heap) a ops :
  createMock d h = (VMock a, h0) →
  accesses a ops h0 = Some h' →
  ∃ ks, handler_ownKeys a h' = Some ks ∧
        (∀ s, s ∈ ks ↔ s ∈ surface_names ∨ s ∈ omap cached_by ops) ∧
        ("prototype" ∉ ks) ∧
        ∃ msg, proxy_ownKeys a h' = Some (Throw (VTypeError msg), h').
Proof.
  intros Hc Hacc.
  destruct (ownKeys_trap_result d h h0 h' a ops Hc Hacc) as (ks & Hk & Hks).
  assert (Hno : "prototype" ∉ ks).
  { rewrite Hks. intros [Hs|Hs].
    - unfold surface_names in Hs. simpl in Hs.
      repeat (apply elem_of_cons in Hs as [Hs|Hs]; [discriminate|]).
      by apply elem_of_nil in Hs.
    - by pose proof (accesses_modelled a ops h0 h' _ Hacc Hs). }
  exists ks. split; [done|]. split; [done|]. split; [done|].
  unfold proxy_ownKeys. rewrite Hk. cbn [mbind option_bind].
  destruct (negb (bool_decide (NoDup ks))); [by eexists|].
  cbn [nonconfigurable_keys forallb]. rewrite bool_decide_false by done.
  by eexists.
Qed.

Lemma enumerating_a_standin_throws_witness :
  ∃ ks, handler_ownKeys 0 accessed_heap = Some ks ∧
        (∀ s, s ∈ ks ↔
              s ∈ surface_names ∨
              s ∈ omap cached_by
                    [ReadMember (PStr "getUser"); WriteMember (PStr "id") (VNum 1);
                     ReadMember (PStr "mock")]) ∧
        ("prototype" ∉ ks) ∧
        ∃ msg, proxy_ownKeys 0 accessed_heap = Some (Throw (VTypeError msg), accessed_heap).
Proof.
  apply (enumerating_a_standin_throws 0 [] fresh_heap accessed_heap 0
           [ReadMember (PStr "getUser"); WriteMember (PStr "id") (VNum 1);
            ReadMember (PStr "mock")]).
  - reflexivity.
  - vm_compute. reflexivity.
Defined.

(** On a stand-in none of whose members was ever read or written, the trap
    returns the recorder's own eleven names, and the enumeration fails on
    the missing [prototype]. *)
Lemma fresh_standin_is_not_enumerable :
  handler_ownKeys 0 fresh_heap = Some surface_names ∧
  proxy_ownKeys 0 fresh_heap
  = Some (Throw (VTypeError "ownKeys: the trap result lacks a non-configurable key"),
          fresh_heap).
Proof. split; vm_compute; reflexivity. Qed.

(** The trap lists array indices first, in ascending order, whatever the
    order in which the members were written; a numeral with a leading zero
    is an ordinary name. *)
Lemma ownKeys_trap_lists_array_indices_first :
  ∃ h', accesses 0 [WriteMember (PStr "b") VNull; WriteMember (PStr "10") VNull;
                    WriteMember (PStr "9") VNull; WriteMember (PStr "01") VNull]
          fresh_heap = Some h' ∧
        handler_ownKeys 0 h' = Some (["9"; "10"] ++ surface_names ++ ["b"; "01"]).
Proof. eexists. split; [vm_compute; reflexivity|]. vm_compute. reflexivity. Qed.

(** ** createMockWithDefaults *)

Lemma isMock_method a m (h : Heap) : isMock (VMethod a m) h = Some (Return false, h).
Proof. reflexivity. Qed.

Lemma get_prop_passthrough c s (h : Heap) nd :
  h !! c = Some nd → passthrough (PStr s) = true → language_member (PStr s) = false →
  get_prop (VMock c) (PStr s) h
  = Some (Return (default VUndef (assoc_get (props nd) (PStr s))), h).
Proof.
  intros Hc Hp Hl. unfold get_prop, handler_get, target_get. rewrite Hc. simpl.
  by rewrite Hl, Hp.
Qed.

Lemma isMock_good c (h : Heap) nd :
  h !! c = Some nd → is_Some (node_log nd) → isMock (VMock c) h = Some (Return true, h).
Proof.
  intros Hc [[cs rs] Hlog]. unfold node_log in Hlog.
  destruct (assoc_get (props nd) (PStr "mock")) as [[]|] eqn:E; try discriminate.
  destruct (obj_get fields "calls") eqn:Ec; try discriminate.
  destruct (obj_get fields "results") eqn:Er; try discriminate.
  assert (G : get_prop (VMock c) (PStr "mock") h = Some (Return (VObj fields), h)).
  { rewrite (get_prop_passthrough c "mock" h nd Hc eq_refl eq_refl). by rewrite E. }
  assert (Hh : has_prop (VMock c) (PStr "mock") h = Some (Return true, h)).
  { unfold has_prop. cbn [is_function orb negb].
    change (language_member (PStr "mock")) with false. cbv beta iota.
    rewrite Hc. simpl. by rewrite E. }
  unfold isMock. rewrite typeof_function. cbn [is_function negb].
  unfold bind at 1. rewrite Hh. cbn [negb].
  unfold bind at 1. rewrite G. rewrite typeof_object. cbn [is_object negb].
  unfold bind at 1. rewrite G. unfold bind at 1.
  rewrite (get_prop_obj fields "calls" h eq_refl), Ec. cbn [is_array negb].
  unfold bind at 1. rewrite G. unfold bind at 1.
  rewrite (get_prop_obj fields "results" h eq_refl), Er. done.
Qed.

Section Defaults.

Variable ftab : nat → list Value → Prog.

Lemma install_skip n mp value (h : Heap) :
  isMock mp h = Some (Return false, h) → install ftab n mp value h = Some (Return tt, h).
Proof. intros H. unfold install, bind. by rewrite H. Qed.

Lemma install_good n c value (h : Heap) nd :
  h !! c = Some nd → good_child c nd →
  install ftab (S n) (VMock c) value h = Some (Return tt, <[c := set_impl value nd]> h).
Proof.
  intros Hc [Hlog Hm]. unfold install. unfold bind at 1.
  rewrite (isMock_good c h nd Hc Hlog). unfold bind at 1.
  rewrite (get_prop_passthrough c "mockImplementation" h nd Hc eq_refl eq_refl), Hm.
  simpl. unfold bind, update_node. by rewrite Hc.
Qed.

Lemma root_inv_init (h : Heap) :
  root_inv (length h) (h ++ [createBaseMock (length h) (VNested 0) 0]).
Proof.
  exists (createBaseMock (length h) (VNested 0) 0). split; [by apply list_lookup_middle|].
  split; [done|]. intros p cur Hp Hf. left.
  apply assoc_get_Some_elem in Hp. unfold createBaseMock in Hp. simpl in Hp.
  repeat (apply elem_of_cons in Hp as [Hp|Hp]; [simplify_eq; try discriminate; eauto|]).
  by apply elem_of_nil in Hp.
Qed.

Lemma good_child_set_impl c value nd : good_child c nd → good_child c (set_impl value nd).
Proof. by intros [? ?]. Qed.

Lemma root_inv_set_impl r c value (h : Heap) ndc :
  root_inv r h → h !! c = Some ndc → c ≠ r → root_inv r (<[c := set_impl value ndc]> h).
Proof.
  intros (ndr & Hr & Hd & Hp) Hc Hne. exists ndr.
  split; [by rewrite list_lookup_insert_ne|]. split; [done|].
  intros p cur Hcur Hf.
  destruct (Hp p cur Hcur Hf) as [?|(Hpt & c' & ndc' & -> & Hne' & Hc' & Hg)]; [by left|].
  right. split; [done|]. destruct (decide (c' = c)) as [->|Hcc].
  - exists c, (set_impl value ndc). rewrite (lookup_insert_node h c ndc _ Hc).
    rewrite Hc in Hc'. injection Hc' as <-.
    split; [done|]. split; [done|]. split; [done|]. by apply good_child_set_impl.
  - exists c', ndc'. by rewrite list_lookup_insert_ne.
Qed.

Lemma root_inv_pin r key value (h : Heap) ndr :
  root_inv r h → h !! r = Some ndr → is_function value = false →
  root_inv r (<[r := set_props (λ ps, assoc_set ps (PStr key) value) ndr]> h).
Proof.
  intros (ndr0 & Hr & Hd & Hp) Hr' Hf. rewrite Hr in Hr'. injection Hr' as <-.
  eexists. split; [by apply (lookup_insert_node h r ndr0)|]. split; [done|].
  intros p cur Hcur Hfc. simpl in Hcur.
  destruct (decide (PStr key = p)) as [<-|Hne].
  - rewrite assoc_get_set_eq in Hcur. injection Hcur as <-. congruence.
  - rewrite assoc_get_set_ne in Hcur by done.
    destruct (Hp p cur Hcur Hfc) as [?|(Hpt & c & ndc & -> & Hcr & Hc & Hg)]; [by left|].
    right. split; [done|]. exists c, ndc. by rewrite list_lookup_insert_ne.
Qed.

Lemma default_entry_step n r key value (h : Heap) :
  root_inv r h → language_member (PStr key) = false →
  ∃ h', default_entry ftab (S n) (VMock r) (key, value) h = Some (Return tt, h') ∧
        root_inv r h' ∧
        (is_function value = true → passthrough (PStr key) = true → h' = h) ∧
        (is_function value = true → passthrough (PStr key) = false →
         (∀ ndr, h !! r = Some ndr → assoc_get (props ndr) (PStr key) = None) →
         ∃ ndr' ndc, h' !! r = Some ndr' ∧
                     assoc_get (props ndr') (PStr key) = Some (VMock (length h)) ∧
                     h' !! length h = Some ndc ∧ impl ndc = value).
Proof.
  intros Hinv Hl. pose proof Hinv as (ndr & Hr & Hd & Hprops).
  unfold default_entry. rewrite typeof_function.
  destruct (is_function value) eqn:Hf.
  2:{ unfold set_prop, handler_set, target_set. rewrite Hr. simpl. rewrite Hl. simpl.
      eexists. split; [reflexivity|]. split; [by apply root_inv_pin|].
      split; intros; discriminate. }
  unfold bind at 1. unfold get_prop, handler_get, target_get. rewrite Hr. simpl.
  rewrite Hl. simpl.
  destruct (passthrough (PStr key)) eqn:Hp.
  { assert (Hm : isMock (default VUndef (assoc_get (props ndr) (PStr key))) h
                 = Some (Return false, h)).
    { destruct (assoc_get (props ndr) (PStr key)) as [x|] eqn:Ex; simpl; [|done].
      destruct (is_function x) eqn:Hfx; [|by apply isMock_nonfunction].
      destruct (Hprops _ _ Ex Hfx) as [[m ->]|[Hpf _]]; [apply isMock_method | congruence]. }
    rewrite (install_skip (S n) _ value h Hm). exists h.
    split; [done|]. split; [done|]. split; [done|]. intros _ ?. discriminate. }
  destruct (is_undefined (default VUndef (assoc_get (props ndr) (PStr key)))) eqn:Eu; simpl.
  - unfold createMock. rewrite Hd. simpl. unfold target_set. rewrite Hl. simpl.
    change (0 + 1)%Z with 1%Z.
    set (child := createBaseMock (length h) (VNested 1) 1).
    set (ndr' := set_props (λ ps, assoc_set ps (PStr key) (VMock (length h))) ndr).
    assert (Hlt : (r < length h)%nat) by by eapply lookup_lt_Some.
    assert (Hc : <[r := ndr']> (h ++ [child]) !! length h = Some child).
    { rewrite list_lookup_insert_ne by lia. by apply list_lookup_middle. }
    assert (Hg : good_child (length h) child) by (split; [by eexists | done]).
    rewrite (install_good n (length h) value _ child Hc Hg).
    assert (Hr' : <[r := ndr']> (h ++ [child]) !! r = Some ndr').
    { apply list_lookup_insert_eq. rewrite length_app. simpl. lia. }
    eexists. split; [reflexivity|].
    assert (Hfinal_r : <[length h := set_impl value child]> (<[r := ndr']> (h ++ [child])) !! r
                       = Some ndr').
    { by rewrite list_lookup_insert_ne by lia. }
    assert (Hfinal_c : <[length h := set_impl value child]> (<[r := ndr']> (h ++ [child]))
                         !! length h = Some (set_impl value child)).
    { by apply (lookup_insert_node _ _ child). }
    split; [|split; [intros; discriminate|]].
    + exists ndr'. split; [done|]. split; [done|]. intros p cur Hcur Hfc. simpl in Hcur.
      destruct (decide (PStr key = p)) as [<-|Hne].
      * rewrite assoc_get_set_eq in Hcur. injection Hcur as <-. right. split; [done|].
        exists (length h), (set_impl value child).
        split; [done|]. split; [lia|]. split; [done|]. by apply good_child_set_impl.
      * rewrite assoc_get_set_ne in Hcur by done.
        destruct (Hprops p cur Hcur Hfc) as [?|(Hpt & c & ndc & -> & Hcr & Hcc & Hgc)];
          [by left|].
        right. split; [done|]. exists c, ndc.
        assert ((c < length h)%nat) by by eapply lookup_lt_Some.
        split; [done|]. split; [done|]. split; [|done].
        rewrite !list_lookup_insert_ne by lia. by rewrite lookup_app_l.
    + intros _ _ _. exists ndr', (set_impl value child).
      split; [done|]. split; [|done]. unfold ndr'. simpl. by rewrite assoc_get_set_eq.
  - destruct (assoc_get (props ndr) (PStr key)) as [x|] eqn:Ex; simpl in *; [|discriminate].
    destruct (is_function x) eqn:Hfx.
    + destruct (Hprops _ _ Ex Hfx) as [[m ->]|(_ & c & ndc & -> & Hcr & Hc & Hg)].
      * rewrite (install_skip (S n) _ value h (isMock_method r m h)). exists h.
        split; [done|]. split; [done|]. split; [intros; discriminate|].
        intros _ _ Hnone. by rewrite (Hnone ndr eq_refl) in Ex.
      * rewrite (install_good n c value h ndc Hc Hg). eexists. split; [reflexivity|].
        split; [by apply root_inv_set_impl|]. split; [intros; discriminate|].
        intros _ _ Hnone. by rewrite (Hnone ndr eq_refl) in Ex.
    + rewrite (install_skip (S n) _ value h (isMock_nonfunction x h Hfx)). exists h.
      split; [done|]. split; [done|]. split; [intros; discriminate|].
      intros _ _ Hnone. by rewrite (Hnone ndr eq_refl) in Ex.
Qed.

Lemma nonpassthrough_absent a dflt d s :
  passthrough (PStr s) = false →
  assoc_get (props (createBaseMock a dflt d)) (PStr s) = None.
Proof.
  intros Hp. destruct (assoc_get _ _) as [x|] eqn:E; [|done]. exfalso.
  assert (Hs : is_Some (assoc_get (props (createBaseMock a dflt d)) (PStr s))) by by eexists.
  apply createBaseMock_keys in Hs. unfold surface_names in Hs. simpl in Hs.
  repeat (apply elem_of_cons in Hs as [->|Hs]; [by vm_compute in Hp|]).
  by apply elem_of_nil in Hs.
Qed.

(** No member that [createBaseMock] puts on the function object is a
    recorder. *)
Lemma isMock_fresh_member r dflt d p (h : Heap) :
  isMock (default VUndef (assoc_get (props (createBaseMock r dflt d)) p)) h
  = Some (Return false, h).
Proof.
  destruct (assoc_get _ p) as [x|] eqn:E; simpl; [|done].
  apply assoc_get_Some_elem in E. unfold createBaseMock in E. simpl in E.
  repeat (apply elem_of_cons in E as [E|E]; [by simplify_eq|]).
  by apply elem_of_nil in E.
Qed.

(** An entry stays settled while the member of the root under its name, the
    root's behavior and the other nodes stay as they are. *)
Lemma settled_frame r (h h' : Heap) kv ndr ndr' :
  h !! r = Some ndr → h' !! r = Some ndr' →
  assoc_get (props ndr') (PStr kv.1) = assoc_get (props ndr) (PStr kv.1) →
  impl ndr' = impl ndr →
  (∀ c nd, c ≠ r → h !! c = Some nd → h' !! c = Some nd) →
  settled r h kv → settled r h' kv.
Proof.
  intros Hr Hr' Hp Hi Hfr (ndr0 & Hr0 & Hs). rewrite Hr in Hr0. injection Hr0 as <-.
  exists ndr'. split; [done|].
  destruct (is_function kv.2); [|by rewrite Hp].
  destruct (passthrough (PStr kv.1)).
  - destruct Hs as (E & _ & Hi0). rewrite Hp. split; [done|]. split; [|congruence].
    rewrite E. apply isMock_fresh_member.
  - destruct Hs as (c & ndc & E & Hne & Hc & Hg & _ & Hi0).
    exists c, ndc. rewrite Hp. split; [done|]. split; [done|]. split; [by apply Hfr|].
    split; [done|]. split; [|done].
    apply (isMock_good c h' ndc); [by apply Hfr | apply Hg].
Qed.

(** The three ways one round of the [forEach] goes. *)
Lemma default_entry_pin n r key value (h : Heap) ndr :
  is_function value = false → h !! r = Some ndr → language_member (PStr key) = false →
  default_entry ftab n (VMock r) (key, value) h
  = Some (Return tt, <[r := set_props (λ ps, assoc_set ps (PStr key) value) ndr]> h).
Proof.
  intros Hf Hr Hl. unfold default_entry. rewrite typeof_function, Hf.
  unfold set_prop, handler_set, target_set. rewrite Hr. cbn [mbind option_bind].
  by rewrite Hl.
Qed.

Lemma default_entry_skip n r key value (h : Heap) ndr :
  is_function value = true → passthrough (PStr key) = true →
  h !! r = Some ndr → language_member (PStr key) = false →
  assoc_get (props ndr) (PStr key)
    = assoc_get (props (createBaseMock r (VNested 0) 0)) (PStr key) →
  default_entry ftab n (VMock r) (key, value) h = Some (Return tt, h).
Proof.
  intros Hf Hp Hr Hl Hfresh. unfold default_entry. rewrite typeof_function, Hf.
  unfold bind at 1. rewrite (get_prop_passthrough r key h ndr Hr Hp Hl).
  apply install_skip. rewrite Hfresh. apply isMock_fresh_member.
Qed.

Lemma default_entry_install n r key value (h : Heap) ndr :
  is_function value = true → passthrough (PStr key) = false →
  h !! r = Some ndr → language_member (PStr key) = false →
  depth ndr = 0%Z → assoc_get (props ndr) (PStr key) = None →
  default_entry ftab (S n) (VMock r) (key, value) h
  = Some (Return tt,
          <[length h := set_impl value (createBaseMock (length h) (VNested 1) 1)]>
            (<[r := set_props (λ ps, assoc_set ps (PStr key) (VMock (length h))) ndr]>
               (h ++ [createBaseMock (length h) (VNested 1) 1]))).
Proof.
  intros Hf Hp Hr Hl Hd Hnone. unfold default_entry. rewrite typeof_function, Hf.
  assert (Hlt : (r < length h)%nat) by by eapply lookup_lt_Some.
  set (child := createBaseMock (length h) (VNested 1) 1).
  set (ndr1 := set_props (λ ps, assoc_set ps (PStr key) (VMock (length h))) ndr).
  assert (Hg : handler_get r (PStr key) h
               = Some (VMock (length h), <[r := ndr1]> (h ++ [child]))).
  { unfold handler_get, target_get, target_set. rewrite Hr. cbn [mbind option_bind].
    rewrite Hl. cbn [mbind option_bind]. rewrite Hp, Hnone. cbn [default is_symbol is_undefined negb].
    unfold createMock. rewrite Hd. change (MAX_DEPTH <? 0 + 1)%Z with false. cbv iota beta.
    by cbn [mbind option_bind]. }
  unfold bind at 1. unfold get_prop. rewrite Hg.
  apply (install_good n (length h) value _ child).
  - rewrite list_lookup_insert_ne by lia. by apply list_lookup_middle.
  - split; [by eexists | done].
Qed.

(** One round of the [forEach]: the entry is settled, and nothing else has
    changed but the heap growing by the child. *)
Lemma default_entry_settles n r key value (h : Heap) ndr :
  root_inv r h → h !! r = Some ndr →
  language_member (PStr key) = false →
  assoc_get (props ndr) (PStr key)
    = assoc_get (props (createBaseMock r (VNested 0) 0)) (PStr key) →
  impl ndr = VNested 0 →
  ∃ h1 ndr1,
    default_entry ftab (S n) (VMock r) (key, value) h = Some (Return tt, h1) ∧
    root_inv r h1 ∧ settled r h1 (key, value) ∧
    h1 !! r = Some ndr1 ∧ impl ndr1 = impl ndr ∧
    (∀ s, s ≠ key → assoc_get (props ndr1) (PStr s) = assoc_get (props ndr) (PStr s)) ∧
    (∀ c nd, c ≠ r → h !! c = Some nd → h1 !! c = Some nd).
Proof.
  intros Hinv Hr Hl Hfresh Himpl.
  assert (Hroot : ∀ h1, default_entry ftab (S n) (VMock r) (key, value) h
                        = Some (Return tt, h1) → root_inv r h1).
  { intros h1 E. destruct (default_entry_step n r key value h Hinv Hl) as (hx & Ex & Hx & _).
    rewrite E in Ex. by injection Ex as <-. }
  assert (Hd : depth ndr = 0%Z).
  { destruct Hinv as (nd0 & H0 & Hd & _). rewrite Hr in H0. by injection H0 as <-. }
  assert (Hlt : (r < length h)%nat) by by eapply lookup_lt_Some.
  unfold settled. cbn [fst snd].
  destruct (is_function value) eqn:Hf; [destruct (passthrough (PStr key)) eqn:Hp|].
  - pose proof (default_entry_skip (S n) r key value h ndr Hf Hp Hr Hl Hfresh) as E.
    exists h, ndr. split; [done|]. split; [by apply Hroot|]. split.
    { exists ndr. split; [done|]. split; [done|]. split; [|done].
      rewrite Hfresh. apply isMock_fresh_member. }
    by repeat split.
  - assert (Hnone : assoc_get (props ndr) (PStr key) = None).
    { rewrite Hfresh. by apply nonpassthrough_absent. }
    pose proof (default_entry_install n r key value h ndr Hf Hp Hr Hl Hd Hnone) as E.
    set (child := createBaseMock (length h) (VNested 1) 1) in *.
    set (ndr1 := set_props (λ ps, assoc_set ps (PStr key) (VMock (length h))) ndr) in *.
    assert (Hr1 : <[length h := set_impl value child]> (<[r := ndr1]> (h ++ [child])) !! r
                  = Some ndr1).
    { rewrite list_lookup_insert_ne by lia.
      apply list_lookup_insert_eq. rewrite length_app. simpl. lia. }
    assert (Hc1 : <[length h := set_impl value child]> (<[r := ndr1]> (h ++ [child]))
                    !! length h = Some (set_impl value child)).
    { apply list_lookup_insert_eq. rewrite length_insert, length_app. simpl. lia. }
    assert (Hg : good_child (length h) (set_impl value child)).
    { apply good_child_set_impl. split; [by eexists | done]. }
    eexists _, ndr1. split; [exact E|]. split; [by apply Hroot|]. split.
    { exists ndr1. split; [done|]. exists (length h), (set_impl value child).
      split; [apply assoc_get_set_eq|]. split; [lia|]. split; [done|].
      split; [done|]. split; [|done].
      apply (isMock_good _ _ (set_impl value child)); [done | apply Hg]. }
    split; [done|]. split; [done|]. split.
    + intros s Hs. unfold ndr1. cbn [props set_props]. apply assoc_get_set_ne. congruence.
    + intros c nd Hcr Hcn.
      assert ((c < length h)%nat) by by eapply lookup_lt_Some.
      rewrite !list_lookup_insert_ne by lia. by rewrite lookup_app_l.
  - pose proof (default_entry_pin (S n) r key value h ndr Hf Hr Hl) as E.
    set (ndr1 := set_props (λ ps, assoc_set ps (PStr key) value) ndr) in *.
    assert (Hr1 : <[r := ndr1]> h !! r = Some ndr1) by by apply (lookup_insert_node h r ndr).
    eexists _, ndr1. split; [exact E|]. split; [by apply Hroot|]. split.
    { exists ndr1. split; [done|]. apply assoc_get_set_eq. }
    split; [done|]. split; [done|]. split.
    + intros s Hs. unfold ndr1. cbn [props set_props]. apply assoc_get_set_ne. congruence.
    + intros c nd Hc Hcn. by rewrite list_lookup_insert_ne.
Qed.

(** The whole [forEach]. *)
Lemma for_each_settles n r es :
  ∀ (h : Heap) ndr,
    root_inv r h → h !! r = Some ndr → impl ndr = VNested 0 →
    NoDup es.*1 →
    Forall (λ kv, language_member (PStr kv.1) = false) es →
    (∀ kv, kv ∈ es →
       assoc_get (props ndr) (PStr kv.1)
       = assoc_get (props (createBaseMock r (VNested 0) 0)) (PStr kv.1)) →
    ∃ h' ndr',
      for_each (default_entry ftab (S n) (VMock r)) es h = Some (Return tt, h') ∧
      Forall (settled r h') es ∧
      h' !! r = Some ndr' ∧ impl ndr' = impl ndr ∧
      (∀ s, s ∉ es.*1 → assoc_get (props ndr') (PStr s) = assoc_get (props ndr) (PStr s)) ∧
      (∀ c nd, c ≠ r → h !! c = Some nd → h' !! c = Some nd).
Proof.
  induction es as [|[key value] es IH]; intros h ndr Hinv Hr Hi Hnd Hall Hfresh.
  - exists h, ndr. by repeat split.
  - apply NoDup_cons in Hnd as [Hnotin Hnd]. simpl in Hnotin.
    inversion Hall as [|? ? Hl Hrest]; subst. simpl in Hl.
    destruct (default_entry_settles n r key value h ndr Hinv Hr Hl)
      as (h1 & ndr1 & E1 & Hinv1 & Hs1 & Hr1 & Hi1 & Hp1 & Hfr1).
    { apply (Hfresh (key, value)). by left. }
    { done. }
    destruct (IH h1 ndr1 Hinv1 Hr1) as (h' & ndr' & E' & Hs' & Hr' & Hi' & Hp' & Hfr').
    { congruence. }
    { done. }
    { done. }
    { intros kv Hin. rewrite Hp1.
      - apply Hfresh. by right.
      - intros Hk. apply Hnotin. apply list_elem_of_fmap. by exists kv. }
    exists h', ndr'. split.
    { cbn [for_each]. unfold bind at 1. by rewrite E1. }
    split.
    { constructor; [|done].
      apply (settled_frame r h1 h' (key, value) ndr1 ndr' Hr1 Hr'); [|done|done|done].
      by apply Hp'. }
    split; [done|]. split; [congruence|]. split.
    + intros s Hs. rewrite fmap_cons, not_elem_of_cons in Hs. destruct Hs as [Hne Hs].
      rewrite (Hp' s Hs). by apply Hp1.
    + intros c nd Hc Hcn. apply Hfr'; [done|]. by apply Hfr1.
Qed.

(** C9 (as amended): createMockWithDefaults never raises, whatever the
    entries are (their names being distinct, as the keys of an object are,
    and none of them a member that function objects have from the
    language). It returns a new root, and every entry is settled in the
    heap it leaves. For an entry whose value is a function it reads the
    child and asks [isMock] before it installs anything: under a name that
    the [get] trap hands to the target the child is not a recorder, and the
    entry is skipped, nothing being installed anywhere; under any other name
    the child is generated, passes the test, and gets the function as its
    persistent behavior. Any other value is written to the root under its
    name. Nothing that was in the heap before is changed. *)
Theorem defaults_install_or_skip n es (h : Heap) :
  NoDup es.*1 →
  Forall (λ kv, language_member (PStr kv.1) = false) es →
  ∃ h', createMockWithDefaults ftab (S n) (Some es) h
          = Some (Return (VMock (length h)), h') ∧
        Forall (settled (length h) h') es ∧
        (∀ c nd, h !! c = Some nd → h' !! c = Some nd).
Proof.
  intros Hnd Hall.
  set (root := createBaseMock (length h) (VNested 0) 0).
  assert (Hr : (h ++ [root]) !! length h = Some root) by by apply list_lookup_middle.
  destruct (for_each_settles n (length h) es (h ++ [root]) root)
    as (h' & ndr' & E & Hs & _ & _ & _ & Hfr); try done.
  { apply root_inv_init. }
  exists h'. split; [|split; [done|]].
  - unfold createMockWithDefaults, createMock. simpl. unfold bind. fold root. by rewrite E.
  - intros c nd Hc. assert ((c < length h)%nat) by by eapply lookup_lt_Some.
    apply Hfr; [lia|]. by rewrite lookup_app_l.
Qed.

End Defaults.

Lemma defaults_install_or_skip_witness :
  ∃ h', createMockWithDefaults example_ftab 1
          (Some [("getUser", VFun 3 []); ("id", VStr "1"); ("mockRestore", VFun 4 [])]) []
          = Some (Return (VMock (length (@nil Node))), h') ∧
        Forall (settled (length (@nil Node)) h')
          [("getUser", VFun 3 []); ("id", VStr "1"); ("mockRestore", VFun 4 [])] ∧
        (∀ c nd, (@nil Node) !! c = Some nd → h' !! c = Some nd).
Proof.
  apply (defaults_install_or_skip example_ftab 0
           [("getUser", VFun 3 []); ("id", VStr "1"); ("mockRestore", VFun 4 [])] []).
  - apply (bool_decide_unpack _). vm_compute. exact I.
  - repeat constructor.
Defined.

(** C9 fails as stated: a defaults entry [mockRestore: f]. The child read
    under that name is [undefined], not a recorder; no error is raised, the
    entry is skipped and the stand-in comes back as [createMock] made it. *)
Lemma defaults_skip_without_error :
  is_function (VFun 3 []) = true ∧
  handler_get 0 (PStr "mockRestore") fresh_heap = Some (VUndef, fresh_heap) ∧
  isMock VUndef fresh_heap = Some (Return false, fresh_heap) ∧
  createMockWithDefaults example_ftab 1 (Some [("mockRestore", VFun 3 [])]) []
  = Some (Return (VMock 0), fresh_heap).
Proof. repeat split; vm_compute; reflexivity. Qed.

(** * Further properties of the code *)

(** ** The recorder's configuration methods *)

Section RecorderMethods.

Variable ftab : nat → list Value → Prog.

Lemma node_log_mock_object nd cs rs :
  node_log nd = Some (cs, rs) →
  ∃ fs, assoc_get (props nd) (PStr "mock") = Some (VObj fs) ∧
        obj_get fs "calls" = VArr cs ∧ obj_get fs "results" = VArr rs.
Proof.
  unfold node_log. intros H.
  destruct (assoc_get (props nd) (PStr "mock")) as [[]|]; try discriminate.
  destruct (obj_get fields "calls") eqn:Ec; try discriminate.
  destruct (obj_get fields "results") eqn:Er; try discriminate.
  injection H as <- <-. by exists fields.
Qed.

Lemma call_method n a m args :
  call ftab (S n) (VMethod a m) args = method (call ftab n) a m args.
Proof. reflexivity. Qed.

Lemma get_prop_base a p (h : Heap) nd :
  h !! a = Some nd → language_member p = false →
  get_prop (VBase a) p h = Some (Return (default VUndef (assoc_get (props nd) p)), h).
Proof. intros Ha Hl. unfold get_prop, target_get. rewrite Ha. simpl. by rewrite Hl. Qed.

(** The node mockClear leaves behind. *)
Lemma call_mockClear n a args (h : Heap) nd fs :
  h !! a = Some nd →
  assoc_get (props nd) (PStr "mock") = Some (VObj fs) →
  call ftab (S n) (VMethod a MClear) args h
  = Some (Return (VBase a),
          <[a := set_props (λ ps, assoc_set ps (PStr "mock")
                     (VObj (obj_set (obj_set fs "calls" (VArr [])) "results" (VArr []))))
                   nd]> h).
Proof.
  intros Ha Hm. cbn [call]. unfold method, target_get.
  change (language_member (PStr "mock")) with false. cbv iota.
  rewrite Ha. simpl. by rewrite Hm.
Qed.

Lemma cleared_node_log fs nd :
  node_log (set_props (λ ps, assoc_set ps (PStr "mock")
              (VObj (obj_set (obj_set fs "calls" (VArr [])) "results" (VArr [])))) nd)
  = Some ([], []).
Proof.
  unfold node_log. simpl. rewrite assoc_get_set_eq.
  by rewrite obj_get_set_ne, obj_get_set_eq, obj_get_set_eq.
Qed.

(** X1. mockClear (index.ts 67-71): whatever the logs held, both are empty
    afterwards; the persistent behavior, the once-queue, the construction
    default and every property other than [mock] are as before, and the
    method returns the recorder function. *)
Theorem mockClear_empties_logs_only n a args (h : Heap) nd fs :
  h !! a = Some nd →
  assoc_get (props nd) (PStr "mock") = Some (VObj fs) →
  ∃ nd', call ftab (S n) (VMethod a MClear) args h
           = Some (Return (VBase a), <[a := nd']> h) ∧
         node_log nd' = Some ([], []) ∧
         impl nd' = impl nd ∧ onceQueue nd' = onceQueue nd ∧
         defaultImpl nd' = defaultImpl nd ∧
         ∀ p, p ≠ PStr "mock" → assoc_get (props nd') p = assoc_get (props nd) p.
Proof.
  intros Ha Hm. eexists. split; [by apply call_mockClear|].
  split; [apply cleared_node_log|].
  repeat split. intros p Hp. simpl. by rewrite assoc_get_set_ne.
Qed.

(** X2. mockReset (index.ts 73-78) on a recorder whose [mockClear] is the
    one it was created with: both logs are emptied, the persistent behavior
    is again the construction-time default, whatever was installed since,
    and the once-queue is empty, whatever was still queued. *)
Theorem mockReset_restores_construction_state n a args (h : Heap) nd fs :
  h !! a = Some nd →
  assoc_get (props nd) (PStr "mock") = Some (VObj fs) →
  assoc_get (props nd) (PStr "mockClear") = Some (VMethod a MClear) →
  ∃ nd', call ftab (S (S n)) (VMethod a MReset) args h
           = Some (Return (VBase a), <[a := nd']> h) ∧
         node_log nd' = Some ([], []) ∧
         impl nd' = defaultImpl nd ∧ onceQueue nd' = [] ∧
         defaultImpl nd' = defaultImpl nd.
Proof.
  intros Ha Hm Hc. eexists. split.
  { rewrite call_method. unfold method. unfold bind at 1.
    rewrite (get_prop_base a (PStr "mockClear") h nd Ha eq_refl), Hc. simpl default.
    unfold bind at 1. rewrite (call_mockClear n a [] h nd fs Ha Hm).
    unfold bind, update_node. rewrite (lookup_insert_node h a nd _ Ha). simpl.
    by rewrite list_insert_insert_eq. }
  split; [apply cleared_node_log | done].
Qed.

(** X3. mockReset reaches the logs only through the recorder's current
    [mockClear] property. When a test has overwritten that property with a
    function [g] that returns without touching the recorder, mockReset
    still restores the default behavior and empties the queue, but the two
    logs keep all their entries. *)
Theorem mockReset_clears_through_mockClear_property n a args (h : Heap) nd g r :
  h !! a = Some nd →
  assoc_get (props nd) (PStr "mockClear") = Some g →
  answers ftab (S n) a g [] (Return r) →
  ∃ h' nd', call ftab (S (S n)) (VMethod a MReset) args h = Some (Return (VBase a), h') ∧
            h' !! a = Some nd' ∧
            node_log nd' = node_log nd ∧
            impl nd' = defaultImpl nd ∧ onceQueue nd' = [].
Proof.
  intros Ha Hc Hg. destruct (Hg h) as (h1 & Hcall & Hsame); [by eexists|].
  rewrite Ha in Hsame.
  exists (<[a := set_onceQueue [] (set_impl (defaultImpl nd) nd)]> h1),
         (set_onceQueue [] (set_impl (defaultImpl nd) nd)).
  split.
  { rewrite call_method. unfold method. unfold bind at 1.
    rewrite (get_prop_base a (PStr "mockClear") h nd Ha eq_refl), Hc. simpl default.
    unfold bind at 1. rewrite Hcall. unfold bind, update_node. by rewrite Hsame. }
  split; [by apply (lookup_insert_node h1 a nd)|]. done.
Qed.

End RecorderMethods.

Lemma mockClear_empties_logs_only_witness :
  ∃ nd', call example_ftab 1 (VMethod 0 MClear) [] called_heap
           = Some (Return (VBase 0), <[0%nat := nd']> called_heap) ∧
         node_log nd' = Some ([], []) ∧
         impl nd' = impl called_node ∧ onceQueue nd' = onceQueue called_node ∧
         defaultImpl nd' = defaultImpl called_node ∧
         ∀ p, p ≠ PStr "mock" → assoc_get (props nd') p = assoc_get (props called_node) p.
Proof.
  eapply (mockClear_empties_logs_only example_ftab 0 0 [] called_heap called_node).
  - vm_compute. reflexivity.
  - vm_compute. reflexivity.
Defined.

Lemma mockReset_restores_construction_state_witness :
  ∃ nd', call example_ftab 2 (VMethod 0 MReset) [] called_heap
           = Some (Return (VBase 0), <[0%nat := nd']> called_heap) ∧
         node_log nd' = Some ([], []) ∧
         impl nd' = defaultImpl called_node ∧ onceQueue nd' = [] ∧
         defaultImpl nd' = defaultImpl called_node.
Proof.
  eapply (mockReset_restores_construction_state example_ftab 0 0 [] called_heap called_node).
  - vm_compute. reflexivity.
  - vm_compute. reflexivity.
  - vm_compute. reflexivity.
Defined.

Lemma mockReset_clears_through_mockClear_property_witness :
  ∃ h' nd', call example_ftab 2 (VMethod 0 MReset) [] overridden_heap
              = Some (Return (VBase 0), h') ∧
            h' !! 0%nat = Some nd' ∧
            node_log nd' = node_log overridden_node ∧
            impl nd' = defaultImpl overridden_node ∧ onceQueue nd' = [].
Proof.
  apply (mockReset_clears_through_mockClear_property example_ftab 0 0 []
           overridden_heap overridden_node (VFun 3 []) (VStr "first")).
  - vm_compute. reflexivity.
  - vm_compute. reflexivity.
  - by apply constant_answers.
Defined.

(** ** Runs of invocations *)

Section Runs.

Variable ftab : nat → list Value → Prog.

Lemma call_mock n a args : call ftab (S n) (VMock a) args = fn (call ftab n) a args.
Proof. reflexivity. Qed.

Lemma invoke_all_cons n a args rest (h : Heap) o h1 :
  call ftab n (VMock a) args h = Some (o, h1) →
  invoke_all ftab n a (args :: rest) h
  = '(os, h2) ← invoke_all ftab n a rest h1; Some (o :: os, h2).
Proof. intros E. cbn [invoke_all]. by rewrite E. Qed.

(** A planned run goes as planned. *)
Lemma invoke_all_planned n a argss :
  ∀ os (h : Heap) nd cs rs,
    h !! a = Some nd → node_log nd = Some (cs, rs) →
    plan ftab n a (onceQueue nd) (impl nd) argss os →
    ∃ h' nd', invoke_all ftab (S n) a argss h = Some (os, h') ∧
              h' !! a = Some nd' ∧
              node_log nd' = Some (cs ++ (VArr <$> argss), rs ++ (result_entry <$> os)) ∧
              onceQueue nd' = drop (length argss) (onceQueue nd) ∧
              impl nd' = impl nd.
Proof.
  induction argss as [|args rest IH]; intros [|o os] h nd cs rs Ha Hlog Hplan;
    try done.
  - exists h, nd. simpl. by rewrite !app_nil_r, drop_0.
  - destruct Hplan as [Hsel Hrest].
    destruct (invoke_answers ftab n a args h nd cs rs o Ha Hlog Hsel)
      as (h1 & nd1 & Hc & H1 & L1 & Q1 & I1).
    rewrite <- Q1, <- I1 in Hrest.
    destruct (IH os h1 nd1 _ _ H1 L1 Hrest) as (h' & nd' & Hall & H' & L' & Q' & I').
    exists h', nd'. split.
    { rewrite (invoke_all_cons (S n) a args rest h o h1 Hc), Hall. done. }
    split; [done|]. split.
    { rewrite L'. by rewrite !fmap_cons, <- !app_assoc. }
    split; [|by rewrite I', I1].
    rewrite Q', Q1. destruct (onceQueue nd); simpl; [by rewrite drop_nil | done].
Qed.

Lemma plan_persistent n a p argss os :
  Forall2 (λ args o, truthy p = true ∧ answers ftab n a p args o
                     ∨ truthy p = false ∧ o = Return VUndef) argss os →
  plan ftab n a [] p argss os.
Proof. induction 1; simpl; [done|]. by split. Qed.

(** X4. The once-queue is first-in first-out for a queue of any length, on
    a recorder whose behaviors leave the recorder itself alone: in a run of
    at least as many invocations as there are functions in the queue,
    invocation [i] is served by the function at place [i] of the queue,
    each queued function serving exactly this one invocation, and every
    later invocation is served by the persistent behavior (or returns
    [undefined] when there is none). Both logs record the run in order, and
    the queue is empty afterwards. *)
Theorem queued_behaviors_serve_in_order n a (h : Heap) nd cs rs argss os h' :
  h !! a = Some nd →
  node_log nd = Some (cs, rs) →
  Forall (λ f, is_function f = true) (onceQueue nd) →
  Forall (quiet ftab n a) (onceQueue nd) →
  quiet ftab n a (impl nd) →
  (length (onceQueue nd) ≤ length argss)%nat →
  invoke_all ftab (S n) a argss h = Some (os, h') →
  (∀ i f, onceQueue nd !! i = Some f → served_by ftab n a h argss os i f) ∧
  (∀ i, (length (onceQueue nd) ≤ i < length argss)%nat →
     served_by ftab n a h argss os i (impl nd)) ∧
  ∃ nd', h' !! a = Some nd' ∧
         onceQueue nd' = [] ∧ impl nd' = impl nd ∧
         node_log nd' = Some (cs ++ (VArr <$> argss), rs ++ (result_entry <$> os)) ∧
         length os = length argss.
Proof.
  intros Ha Hlog Hfun Qq Qi Hlen Hall.
  destruct (invoke_all_served ftab n a argss h nd cs rs os h' Ha Hlog Hfun Qq Qi Hall)
    as (Hserved & nd' & H' & Q' & I' & L' & Hos).
  split; [|split].
  - intros i f Hf. assert (Hi : (i < length (onceQueue nd))%nat) by by eapply lookup_lt_Some.
    pose proof (Hserved i ltac:(lia)) as Hs. by rewrite Hf in Hs.
  - intros i [Hi1 Hi2]. pose proof (Hserved i Hi2) as Hs.
    by rewrite (lookup_ge_None_2 _ _ Hi1) in Hs.
  - exists nd'. split; [done|]. split; [|done]. rewrite Q'. by apply drop_ge.
Qed.

Lemma call_via n a name m v (h : Heap) nd :
  h !! a = Some nd → language_member (PStr name) = false →
  assoc_get (props nd) (PStr name) = Some (VMethod a m) →
  (let* g := get_prop (VBase a) (PStr name) in call ftab (S n) g [v]) h
  = method (call ftab n) a m [v] h.
Proof.
  intros Ha Hl Hm. unfold bind. by rewrite (get_prop_base a (PStr name) h nd Ha Hl), Hm.
Qed.

(** What the two installing methods do to the node. *)
Lemma call_sugar_persistent n a f (h : Heap) nd :
  h !! a = Some nd →
  assoc_get (props nd) (PStr "mockImplementation") = Some (VMethod a MImplementation) →
  (let* g := get_prop (VBase a) (PStr "mockImplementation") in call ftab (S n) g [f]) h
  = Some (Return (VBase a), <[a := set_impl f nd]> h).
Proof.
  intros Ha Hm.
  rewrite (call_via n a "mockImplementation" _ f h nd Ha eq_refl Hm).
  unfold method, bind, update_node. by rewrite Ha.
Qed.

Lemma call_sugar_once n a f (h : Heap) nd :
  h !! a = Some nd →
  assoc_get (props nd) (PStr "mockImplementationOnce")
    = Some (VMethod a MImplementationOnce) →
  (let* g := get_prop (VBase a) (PStr "mockImplementationOnce") in call ftab (S n) g [f]) h
  = Some (Return (VBase a), <[a := set_onceQueue (onceQueue nd ++ [f]) nd]> h).
Proof.
  intros Ha Hm.
  rewrite (call_via n a "mockImplementationOnce" _ f h nd Ha eq_refl Hm).
  unfold method, bind, update_node. by rewrite Ha.
Qed.

Lemma const_answers n a v args : answers ftab (S n) a (VConst v) args (Return v).
Proof. intros h _. by exists h. Qed.

(** X5. mockReturnValueOnce(x) followed by mockReturnValue(y) (index.ts 60-61)
    on a recorder with an empty queue: the first invocation returns [x],
    every later one returns [y], whatever the arguments; the logs hold the
    calls and the returns in that order. *)
Theorem return_value_once_then_always n a (h : Heap) nd cs rs x y args argss :
  h !! a = Some nd →
  node_log nd = Some (cs, rs) →
  methods_intact a nd →
  onceQueue nd = [] →
  ∃ h1 h2 h',
    call ftab (S (S n)) (VMethod a MReturnValueOnce) [x] h = Some (Return (VBase a), h1) ∧
    call ftab (S (S n)) (VMethod a MReturnValue) [y] h1 = Some (Return (VBase a), h2) ∧
    invoke_all ftab (S (S n)) a (args :: argss) h2
      = Some (Return x :: replicate (length argss) (Return y), h') ∧
    log_at h' a
      = Some (cs ++ (VArr <$> args :: argss),
              rs ++ (result_entry <$> Return x :: replicate (length argss) (Return y))).
Proof.
  intros Ha Hlog (Hmi & Hmo & _) Hq.
  set (ndA := set_onceQueue (onceQueue nd ++ [VConst x]) nd).
  set (ndB := set_impl (VConst y) ndA).
  assert (HA : <[a := ndA]> h !! a = Some ndA) by by apply (lookup_insert_node h a nd).
  assert (HB : <[a := ndB]> h !! a = Some ndB) by by apply (lookup_insert_node h a nd).
  destruct (invoke_all_planned (S n) a (args :: argss)
              (Return x :: replicate (length argss) (Return y))
              (<[a := ndB]> h) ndB cs rs HB Hlog) as (h' & nd' & Hall & H' & L' & _).
  { unfold ndB, ndA. simpl. rewrite Hq. simpl. split.
    - left. split; [done | apply const_answers].
    - apply plan_persistent. clear. induction argss as [|b l IH]; simpl; constructor;
        [left; split; [done | apply const_answers] | exact IH]. }
  exists (<[a := ndA]> h), (<[a := ndB]> h), h'. split.
  { rewrite call_method. unfold method. simpl hd.
    by apply call_sugar_once. }
  split.
  { rewrite call_method. unfold method. simpl hd.
    rewrite (call_sugar_persistent n a (VConst y) _ ndA HA Hmi).
    by rewrite list_insert_insert_eq. }
  split; [done|]. unfold log_at. by rewrite H'.
Qed.

Lemma reject_answers n a e args :
  answers ftab (S n) a (VReject e) args (Return (VPromise false e)).
Proof. intros h _. by exists h. Qed.

Lemma resolve_answers n a v args :
  reads_then v = false →
  answers ftab (S n) a (VResolve v) args (Return (promise_of v)).
Proof.
  intros Hv h _. exists h. cbn [call]. unfold promise_resolve.
  by destruct v; try discriminate.
Qed.

(** X6. mockRejectedValue(e) (index.ts 64) makes the recorder return a
    rejected promise, whatever [e] is: the invocation itself does not
    throw, and the outcome log records it with type ['return'], the promise
    being the value. mockResolvedValue(v) (index.ts 62) likewise returns and
    records [Promise.resolve(v)] when [v] is a value without members of its
    own to look at (a primitive, an array, a promise): a promise as it is,
    any other such value inside a fulfilled promise. *)
Theorem rejected_value_is_returned_not_thrown n a (h : Heap) nd cs rs v args :
  h !! a = Some nd →
  node_log nd = Some (cs, rs) →
  methods_intact a nd →
  onceQueue nd = [] →
  (∃ h1 h2,
     call ftab (S (S n)) (VMethod a MRejectedValue) [v] h = Some (Return (VBase a), h1) ∧
     call ftab (S (S n)) (VMock a) args h1 = Some (Return (VPromise false v), h2) ∧
     log_at h2 a
       = Some (cs ++ [VArr args],
               rs ++ [VObj [("type", VStr "return"); ("value", VPromise false v)]])) ∧
  (reads_then v = false →
   ∃ h1 h2,
     call ftab (S (S n)) (VMethod a MResolvedValue) [v] h = Some (Return (VBase a), h1) ∧
     call ftab (S (S n)) (VMock a) args h1 = Some (Return (promise_of v), h2) ∧
     log_at h2 a
       = Some (cs ++ [VArr args],
               rs ++ [VObj [("type", VStr "return"); ("value", promise_of v)]])).
Proof.
  intros Ha Hlog (Hmi & _ & _) Hq.
  assert (Hgen : ∀ f o,
    truthy f = true → is_nullish f = false → answers ftab (S n) a f args o →
    ∃ h2, call ftab (S (S n)) (VMock a) args (<[a := set_impl f nd]> h) = Some (o, h2) ∧
          log_at h2 a = Some (cs ++ [VArr args], rs ++ [result_entry o])).
  { intros f o Ht Hn Hans.
    assert (Hf : <[a := set_impl f nd]> h !! a = Some (set_impl f nd))
      by by apply (lookup_insert_node h a nd).
    destruct (invoke_answers ftab (S n) a args _ (set_impl f nd) cs rs o Hf Hlog)
      as (h2 & nd2 & Hc & H2 & L2 & _).
    { left. unfold toCall_of. simpl. rewrite Hq. simpl. by split. }
    exists h2. split; [done|]. unfold log_at. by rewrite H2. }
  split.
  - destruct (Hgen (VReject v) (Return (VPromise false v)) eq_refl eq_refl
                (reject_answers n a v args)) as (h2 & Hc & Hl).
    exists (<[a := set_impl (VReject v) nd]> h), h2. split; [|by split].
    rewrite call_method. unfold method. simpl hd. by apply call_sugar_persistent.
  - intros Hv.
    destruct (Hgen (VResolve v) (Return (promise_of v)) eq_refl eq_refl
                (resolve_answers n a v args Hv)) as (h2 & Hc & Hl).
    exists (<[a := set_impl (VResolve v) nd]> h), h2. split; [|by split].
    rewrite call_method. unfold method. simpl hd. by apply call_sugar_persistent.
Qed.

End Runs.

(** ** Unconfigured stand-ins, other recorders, and the call history *)

Lemma push_node_closure field x nd nd' :
  push_node field x nd = Some nd' → onceQueue nd' = onceQueue nd ∧ impl nd' = impl nd.
Proof.
  unfold push_node. destruct (target_get nd (PStr "mock")) as [m|]; [|discriminate].
  simpl. destruct (log_push field x m); [|discriminate]. simpl.
  intros E. by injection E as <-.
Qed.

Lemma last_or_snoc xs x dflt : truthy x = true → last_or (xs ++ [x]) dflt = x.
Proof. intros Ht. unfold last_or. rewrite last_snoc. simpl. by rewrite Ht. Qed.

(** What [getCallInfo] returns for a stand-in whose logs are [cs], [rs]. *)
Lemma getCallInfo_of_log a (h : Heap) nd cs rs :
  h !! a = Some nd → node_log nd = Some (cs, rs) →
  getCallInfo (VMock a) h
  = Some (Return (mkCallInfo (Z.of_nat (length cs)) cs rs
                    (last_or cs (VArr []))
                    (last_or rs (result_entry (Return VUndef)))), h).
Proof.
  intros Ha Hlog.
  destruct (node_log_mock_object nd cs rs Hlog) as (fs & Hm & Hc & Hr).
  assert (Harr : ∀ field xs, language_member (PStr field) = false →
                 obj_get fs field = VArr xs →
                 mock_array (VMock a) field h = Some (Return xs, h)).
  { intros field xs Hl Hf. unfold mock_array, bind.
    rewrite (get_prop_passthrough a "mock" h nd Ha eq_refl eq_refl), Hm. simpl default.
    by rewrite (get_prop_obj fs field h Hl), Hf. }
  unfold getCallInfo. unfold bind at 1.
  rewrite (isMock_good a h nd Ha ltac:(by eexists)). cbn [negb].
  unfold bind. by rewrite (Harr "calls" cs eq_refl Hc), (Harr "results" rs eq_refl Hr).
Qed.

Section Standins.

Variable ftab : nat → list Value → Prog.

(** One invocation of a stand-in that still has its default behavior. *)
Lemma invoke_default n a args (h : Heap) nd cs rs d :
  h !! a = Some nd → node_log nd = Some (cs, rs) →
  onceQueue nd = [] → impl nd = VNested d → (d < MAX_DEPTH)%Z →
  ∃ nd', call ftab (S (S n)) (VMock a) args h
           = Some (Return (VMock (length h)),
                   <[a := nd']> h ++ [createBaseMock (length h) (VNested (d + 1)) (d + 1)]) ∧
         node_log nd' = Some (cs ++ [VArr args],
                              rs ++ [result_entry (Return (VMock (length h)))]) ∧
         onceQueue nd' = [] ∧ impl nd' = VNested d.
Proof.
  intros Ha Hlog Hq Hi Hd.
  assert (Hlt : (a < length h)%nat) by by eapply lookup_lt_Some.
  destruct (begin_call_spec a args h nd cs rs Ha Hlog) as (nd1 & Hb & _).
  set (child := createBaseMock (length h) (VNested (d + 1)) (d + 1)).
  assert (Ht : toCall_of nd = VNested d) by (unfold toCall_of; by rewrite Hq, Hi).
  destruct (invoke_step ftab (S n) a args h (<[a := nd1]> h ++ [child]) nd cs rs
              (Return (VMock (length h))) Ha Hlog) as (nd' & Hc & _ & Hl & Hq' & Hi').
  { intros h1 Hb'. rewrite Hb in Hb'. injection Hb' as <-. rewrite Ht. simpl truthy.
    cbv iota. cbn [call]. unfold createMock.
    rewrite (proj2 (Z.ltb_ge _ _)) by (unfold MAX_DEPTH in *; lia).
    rewrite length_insert. split; [done|].
    apply lookup_app_l. by rewrite length_insert. }
  exists nd'. split.
  { rewrite Hc. by rewrite insert_app_l, list_insert_insert_eq by (by rewrite length_insert). }
  split; [done|]. split; [by rewrite Hq', Hq | by rewrite Hi'].
Qed.

(** X7. A stand-in that was never configured returns a new stand-in from
    every call (index.ts 193): the results of [N] invocations are [N]
    different, newly allocated stand-ins, one level deeper than the one
    called; nothing is cached between calls, and no stand-in that existed
    before, other than the one called, is changed. *)
Theorem unconfigured_call_returns_new_standin_each_time n a d argss :
  ∀ (h : Heap) nd cs rs,
    h !! a = Some nd → node_log nd = Some (cs, rs) →
    onceQueue nd = [] → impl nd = VNested d → (d < MAX_DEPTH)%Z →
    ∃ h', invoke_all ftab (S (S n)) a argss h
            = Some ((λ i, Return (VMock i)) <$> seq (length h) (length argss), h') ∧
          length h' = (length h + length argss)%nat ∧
          (∀ b ndb, b ≠ a → h !! b = Some ndb → h' !! b = Some ndb) ∧
          (∀ i, (i < length argss)%nat →
                h' !! (length h + i)%nat
                = Some (createBaseMock (length h + i) (VNested (d + 1)) (d + 1))).
Proof.
  induction argss as [|args rest IH]; intros h nd cs rs Ha Hlog Hq Hi Hd.
  - exists h. simpl. repeat split; [lia | done | intros; lia].
  - assert (Hlt : (a < length h)%nat) by by eapply lookup_lt_Some.
    destruct (invoke_default n a args h nd cs rs d Ha Hlog Hq Hi Hd)
      as (nd' & Hc & Hl & Hq' & Hi').
    remember (<[a := nd']> h ++ [createBaseMock (length h) (VNested (d + 1)) (d + 1)])
      as h1 eqn:Eh1.
    assert (Hlen1 : length h1 = S (length h)).
    { rewrite Eh1, length_app, length_insert. simpl. lia. }
    assert (H1 : h1 !! a = Some nd').
    { rewrite Eh1, lookup_app_l by (by rewrite length_insert).
      by apply (lookup_insert_node h a nd). }
    destruct (IH h1 nd' _ _ H1 Hl Hq' Hi' Hd) as (h' & Hall & Hlen & Hframe & Hnew).
    exists h'. split.
    { rewrite (invoke_all_cons ftab (S (S n)) a args rest h _ h1 Hc), Hall.
      simpl. by rewrite Hlen1. }
    split; [simpl; lia|]. split.
    + intros b ndb Hne Hb. apply Hframe; [done|].
      rewrite Eh1, lookup_app_l
        by (rewrite length_insert; by eapply lookup_lt_Some).
      by rewrite list_lookup_insert_ne.
    + intros [|i] Hi0.
      * rewrite Nat.add_0_r. apply Hframe; [lia|].
        rewrite Eh1, <- (length_insert h a nd') at 1. by apply list_lookup_middle.
      * replace (length h + S i)%nat with (length h1 + i)%nat by lia.
        rewrite Hnew by (simpl in Hi0; lia). by rewrite Hlen1.
Qed.

(** X8. Invoking one recorder changes no other recorder, as long as the
    behavior it runs does not: the logs, behaviors and members of every
    other stand-in are after the call what they were before (a child's
    calls are not counted on its parent, nor the parent's on the child). *)
Theorem invocation_leaves_other_recorders n a c args (h h' : Heap) ndc o :
  a ≠ c →
  is_Some (h !! a) →
  h !! c = Some ndc →
  quiet ftab n a (toCall_of ndc) →
  call ftab (S n) (VMock c) args h = Some (o, h') →
  h' !! a = h !! a.
Proof.
  intros Hne Hsome Hc Hquiet. rewrite call_mock. unfold fn, begin_call, record.
  rewrite Hc. simpl.
  destruct (push_node "calls" (VArr args) ndc) as [nd0|] eqn:Hp; [|discriminate]. simpl.
  rewrite (lookup_insert_node h c ndc nd0 Hc). simpl.
  rewrite list_insert_insert_eq.
  destruct (push_node_closure _ _ _ _ Hp) as [Hq0 Hi0].
  assert (Ht : toCall_of nd0 = toCall_of ndc) by (unfold toCall_of; by rewrite Hq0, Hi0).
  rewrite Ht.
  set (h1 := <[c := set_onceQueue (tl (onceQueue nd0)) nd0]> h).
  assert (H1 : h1 !! a = h !! a) by (unfold h1; by rewrite list_lookup_insert_ne).
  destruct (if truthy (toCall_of ndc) then call ftab n (toCall_of ndc) args h1
            else Some (Return VUndef, h1)) as [[o' h2]|] eqn:Erun; [|discriminate].
  simpl. assert (H2 : h2 !! a = h !! a).
  { destruct (truthy (toCall_of ndc)).
    - rewrite <- H1. eapply Hquiet; [|exact Erun]. by rewrite H1.
    - by injection Erun as <- <-. }
  destruct (h2 !! c) as [nd2|]; [|discriminate]. simpl.
  destruct (push_node "results" (result_entry o') nd2) as [nd3|]; [|discriminate]. simpl.
  intros E. injection E as <- <-. by rewrite list_lookup_insert_ne.
Qed.

(** The logs after a run of invocations whose behaviors leave the recorder
    alone: the argument tuples and the outcomes, in the order of the run. *)
Lemma invoke_all_quiet_logs n a argss :
  ∀ (h : Heap) nd cs rs os h',
    h !! a = Some nd → node_log nd = Some (cs, rs) →
    quiet ftab n a (impl nd) → Forall (quiet ftab n a) (onceQueue nd) →
    invoke_all ftab (S n) a argss h = Some (os, h') →
    ∃ nd', h' !! a = Some nd' ∧
           node_log nd' = Some (cs ++ (VArr <$> argss), rs ++ (result_entry <$> os)) ∧
           length os = length argss.
Proof.
  induction argss as [|args rest IH]; intros h nd cs rs os h' Ha Hlog Qi Qq Hall.
  - injection Hall as <- <-. exists nd. simpl. by rewrite !app_nil_r.
  - cbn [invoke_all] in Hall.
    destruct (call ftab (S n) (VMock a) args h) as [[o hx]|] eqn:Ec; [|discriminate].
    cbn [mbind option_bind] in Hall.
    destruct (invoke_all ftab (S n) a rest hx) as [[os' hy]|] eqn:Er; [|discriminate].
    cbn [mbind option_bind] in Hall. injection Hall as <- <-.
    destruct (begin_call_spec a args h nd cs rs Ha Hlog) as (nd1 & Hb & _).
    pose proof Ec as Ec'. rewrite call_mock in Ec'. unfold fn in Ec'. rewrite Hb in Ec'.
    cbn [mbind option_bind] in Ec'.
    destruct (if truthy (toCall_of nd) then call ftab n (toCall_of nd) args (<[a := nd1]> h)
              else Some (Return VUndef, <[a := nd1]> h)) as [[o' h2]|] eqn:Erun;
      [|discriminate].
    assert (Hsame : h2 !! a = <[a := nd1]> h !! a).
    { destruct (truthy (toCall_of nd)).
      - eapply (quiet_toCall ftab n a nd Qi Qq); [|exact Erun].
        rewrite (lookup_insert_node h a nd nd1 Ha). by eexists.
      - by injection Erun as <- <-. }
    destruct (invoke_step ftab n a args h h2 nd cs rs o' Ha Hlog)
      as (nd' & Hc & Hx & Hl & Hq' & Hi').
    { intros h1 Hb'. rewrite Hb in Hb'. injection Hb' as <-. by split. }
    rewrite Hc in Ec. injection Ec as <- <-.
    assert (Qi' : quiet ftab n a (impl nd')) by by rewrite Hi'.
    assert (Qq' : Forall (quiet ftab n a) (onceQueue nd')).
    { rewrite Hq'. destruct (onceQueue nd); [done | by inversion Qq]. }
    destruct (IH _ nd' _ _ _ _ Hx Hl Qi' Qq' Er) as (ndf & Hf & Lf & Hlen).
    exists ndf. split; [done|]. split.
    + rewrite Lf. by rewrite !fmap_cons, <- !app_assoc.
    + simpl. by rewrite Hlen.
Qed.

(** X9. The call history after a run: for a recorder with empty logs whose
    behaviors leave it alone, after [N >= 1] invocations [getCallInfo]
    reports [callCount = N], the argument tuples in the order of the calls,
    the outcomes in the same order (entry [i] of one log belongs to entry
    [i] of the other), the arguments of the last call as [lastCall] and the
    outcome of the last call as [lastResult]. *)
Theorem call_history_after_run n a (h h' : Heap) nd argss args os :
  h !! a = Some nd →
  node_log nd = Some ([], []) →
  quiet ftab n a (impl nd) →
  Forall (quiet ftab n a) (onceQueue nd) →
  invoke_all ftab (S n) a (argss ++ [args]) h = Some (os, h') →
  ∃ os0 o,
    os = os0 ++ [o] ∧ length os0 = length argss ∧
    getCallInfo (VMock a) h'
    = Some (Return (mkCallInfo (Z.of_nat (S (length argss)))
                      (VArr <$> argss ++ [args])
                      (result_entry <$> os0 ++ [o])
                      (VArr args) (result_entry o)), h').
Proof.
  intros Ha Hlog Qi Qq Hall.
  destruct (invoke_all_quiet_logs n a _ h nd [] [] os h' Ha Hlog Qi Qq Hall)
    as (nd' & H' & L' & Hlen).
  rewrite length_app in Hlen. simpl in Hlen.
  destruct (decide (os = [])) as [->|Hne]; [simpl in Hlen; lia|].
  destruct (exists_last Hne) as (os0 & o & ->).
  rewrite length_app in Hlen. simpl in Hlen.
  exists os0, o. split; [done|]. split; [lia|].
  rewrite (getCallInfo_of_log a h' nd' _ _ H' L'). simpl app.
  rewrite !fmap_app. simpl fmap.
  rewrite (last_or_snoc _ (VArr args)) by done.
  rewrite (last_or_snoc _ (result_entry o)) by (by destruct o).
  rewrite length_app, length_fmap. simpl length.
  by replace (length argss + 1)%nat with (S (length argss)) by lia.
Qed.

(** X10. The configuration methods return the recorder function itself, not
    the proxy around it (index.ts 50-58): on the value that
    [rec.mockImplementation(f)] returns, a member that was never written
    reads [undefined] and nothing is generated, whereas the same read on the
    stand-in generates a child. *)
Theorem configuration_returns_the_unproxied_recorder n a f (h : Heap) nd s :
  h !! a = Some nd →
  passthrough (PStr s) = false →
  language_member (PStr s) = false →
  assoc_get (props nd) (PStr s) = None →
  (depth nd < MAX_DEPTH)%Z →
  ∃ h', call ftab (S n) (VMethod a MImplementation) [f] h = Some (Return (VBase a), h') ∧
        get_prop (VBase a) (PStr s) h' = Some (Return VUndef, h') ∧
        ∃ h'', get_prop (VMock a) (PStr s) h' = Some (Return (VMock (length h')), h'').
Proof.
  intros Ha Hp Hl Hnone Hd.
  assert (H' : <[a := set_impl f nd]> h !! a = Some (set_impl f nd))
    by by apply (lookup_insert_node h a nd).
  exists (<[a := set_impl f nd]> h). split.
  { rewrite call_method. unfold method, bind, update_node. by rewrite Ha. }
  split.
  { rewrite (get_prop_base a (PStr s) _ _ H' Hl). simpl. by rewrite Hnone. }
  unfold get_prop, handler_get, target_get, target_set. rewrite H'. simpl.
  rewrite Hl, Hnone. simpl. rewrite Hp. simpl. unfold createMock.
  rewrite (proj2 (Z.ltb_ge _ _)) by (unfold MAX_DEPTH in *; lia).
  by eexists.
Qed.

End Standins.

(** ** Generated children, member chains and descriptors *)

Lemma fresh_node_log a dflt d : node_log (createBaseMock a dflt d) = Some ([], []).
Proof. reflexivity. Qed.

Lemma fresh_good_child a dflt d : good_child a (createBaseMock a dflt d).
Proof. split; [by eexists | done]. Qed.

(** X11. [isMock] recognises exactly what [createMock] hands out: the
    stand-in it allocates up to the maximum depth is a mock, the
    placeholder it returns beyond that depth is not. *)
Theorem isMock_recognises_createMock d (h : Heap) :
  isMock (createMock d h).1 (createMock d h).2
  = Some (Return (negb (MAX_DEPTH <? d)%Z), (createMock d h).2).
Proof.
  unfold createMock. destruct (MAX_DEPTH <? d)%Z; simpl.
  - by apply isMock_nonfunction.
  - apply (isMock_good _ _ (createBaseMock (length h) (VNested d) d)).
    + by apply list_lookup_middle.
    + by eexists.
Qed.

(** What the first read of a member that is not in the cache does. *)
Lemma handler_get_generates a s (h : Heap) nd :
  h !! a = Some nd →
  passthrough (PStr s) = false → language_member (PStr s) = false →
  assoc_get (props nd) (PStr s) = None →
  (depth nd < MAX_DEPTH)%Z →
  handler_get a (PStr s) h
  = Some (VMock (length h),
          <[a := set_props (λ ps, assoc_set ps (PStr s) (VMock (length h))) nd]>
            (h ++ [createBaseMock (length h) (VNested (depth nd + 1)) (depth nd + 1)])).
Proof.
  intros Ha Hp Hl Hnone Hd. unfold handler_get, target_get, target_set.
  rewrite Ha. simpl. rewrite Hl, Hnone. simpl. rewrite Hp. simpl. unfold createMock.
  by rewrite (proj2 (Z.ltb_ge _ _)) by (unfold MAX_DEPTH in *; lia).
Qed.

(** X12. The first read of a member generates a recorder of its own
    (index.ts 157-160): the child is a different stand-in from its parent,
    it is a mock with empty logs, one level deeper, and generating it leaves
    the parent's logs, behaviors and queue as they were. *)
Theorem generated_child_is_a_fresh_recorder a s (h : Heap) nd :
  h !! a = Some nd →
  passthrough (PStr s) = false →
  language_member (PStr s) = false →
  assoc_get (props nd) (PStr s) = None →
  (depth nd < MAX_DEPTH)%Z →
  ∃ c h1 ndc nd',
    handler_get a (PStr s) h = Some (VMock c, h1) ∧
    c ≠ a ∧ h !! c = None ∧
    h1 !! c = Some ndc ∧ depth ndc = (depth nd + 1)%Z ∧
    isMock (VMock c) h1 = Some (Return true, h1) ∧
    log_at h1 c = Some ([], []) ∧
    h1 !! a = Some nd' ∧ node_log nd' = node_log nd ∧
    impl nd' = impl nd ∧ onceQueue nd' = onceQueue nd.
Proof.
  intros Ha Hp Hl Hnone Hd.
  assert (Hlt : (a < length h)%nat) by by eapply lookup_lt_Some.
  set (child := createBaseMock (length h) (VNested (depth nd + 1)) (depth nd + 1)).
  set (nd' := set_props (λ ps, assoc_set ps (PStr s) (VMock (length h))) nd).
  assert (Hc : <[a := nd']> (h ++ [child]) !! length h = Some child).
  { rewrite list_lookup_insert_ne by lia. by apply list_lookup_middle. }
  exists (length h), (<[a := nd']> (h ++ [child])), child, nd'.
  split; [by apply handler_get_generates|].
  split; [lia|]. split; [by apply lookup_ge_None_2|]. split; [done|]. split; [done|].
  split; [by apply (isMock_good _ _ child); [|eexists]|].
  split; [unfold log_at; by rewrite Hc|].
  split.
  { apply list_lookup_insert_eq. rewrite length_app. lia. }
  split; [|done]. unfold node_log, nd'. simpl.
  rewrite assoc_get_set_ne; [done|]. intros E. injection E as ->. by vm_compute in Hp.
Qed.

(** X13. A write touches one member of one stand-in (index.ts 164-167):
    after [a.p = w], reading any other member, of the same stand-in or of
    another one, returns what it would have returned without the write. *)
Theorem write_leaves_other_members a b p q w (h h2 : Heap) :
  handler_set a p w h = Some h2 →
  (a, p) ≠ (b, q) →
  fst <$> handler_get b q h2 = fst <$> handler_get b q h.
Proof.
  unfold handler_set. destruct (h !! a) as [nd|] eqn:Ha; [|discriminate]. simpl.
  unfold target_set. destruct (language_member p) eqn:Hlp; [discriminate|]. simpl.
  intros E Hne. injection E as <-.
  assert (Hlen : length (<[a := set_props (λ ps, assoc_set ps p w) nd]> h) = length h)
    by apply length_insert.
  unfold handler_get.
  destruct (decide (a = b)) as [<-|Hab].
  - assert (Hpq : p ≠ q) by congruence.
    rewrite (lookup_insert_node h a nd _ Ha), Ha. simpl.
    unfold target_get, target_set. destruct (language_member q); [done|]. simpl.
    rewrite assoc_get_set_ne by done.
    repeat case_match; try done; simplify_eq.
    all: unfold createMock in *; repeat case_match; simplify_eq; simpl; try done.
    all: by rewrite ?Hlen.
  - rewrite list_lookup_insert_ne by done.
    destruct (h !! b) as [ndb|]; [|done]. simpl.
    unfold target_get, target_set. destruct (language_member q); [done|]. simpl.
    repeat case_match; try done; simplify_eq.
    all: unfold createMock in *; repeat case_match; simplify_eq; simpl; try done.
    all: by rewrite ?Hlen.
Qed.

(** X14. What the descriptor trap says follows the cache and never fills
    it (index.ts 175-184): for a member that the [get] trap does not hand
    to the target, there is no descriptor as long as the member is not in
    the cache, and once the member has been read the descriptor is
    enumerable and configurable and carries the very value the read
    returned. *)
Theorem descriptor_follows_the_cache a s (h : Heap) nd :
  h !! a = Some nd →
  passthrough (PStr s) = false →
  language_member (PStr s) = false →
  (assoc_get (props nd) (PStr s) = None →
   handler_getOwnPropertyDescriptor a (PStr s) h = Some VUndef) ∧
  (∀ v h1, handler_get a (PStr s) h = Some (v, h1) →
     handler_getOwnPropertyDescriptor a (PStr s) h1
     = Some (VObj [("configurable", VBool true); ("enumerable", VBool true);
                   ("value", v)])).
Proof.
  intros Ha Hp Hl. split.
  - intros Hnone. unfold handler_getOwnPropertyDescriptor. rewrite Ha. simpl.
    by rewrite Hl, Hnone.
  - intros v h1. unfold handler_get, target_get, target_set. rewrite Ha. simpl.
    rewrite Hl. simpl. rewrite Hp. simpl.
    destruct (is_undefined (default VUndef (assoc_get (props nd) (PStr s)))) eqn:Eu; simpl.
    + unfold createMock.
      destruct (MAX_DEPTH <? depth nd + 1)%Z; simpl; intros E; injection E as <- <-;
        unfold handler_getOwnPropertyDescriptor.
      * rewrite (lookup_insert_node h a nd _ Ha). simpl.
        by rewrite Hl, assoc_get_set_eq.
      * rewrite list_lookup_insert_eq
          by (rewrite length_app; apply lookup_lt_Some in Ha; lia).
        simpl. by rewrite Hl, assoc_get_set_eq.
    + intros E. injection E as <- <-. unfold handler_getOwnPropertyDescriptor.
      rewrite Ha. simpl. rewrite Hl.
      destruct (assoc_get (props nd) (PStr s)); [done | discriminate].
Qed.

Lemma walk_undefined path (h : Heap) :
  walk VUndef path h
  = match path with
    | [] => Some (Return VUndef, h)
    | _ :: _ =>
        Some (Throw (VTypeError "Cannot read properties of undefined or null"), h)
    end.
Proof. by destruct path. Qed.

Lemma nonpassthrough_fresh a dflt d s :
  passthrough (PStr s) = false →
  assoc_get (props (createBaseMock a dflt d)) (PStr s) = None.
Proof.
  intros Hp. destruct (assoc_get _ _) as [x|] eqn:E; [|done]. exfalso.
  assert (Hs : is_Some (assoc_get (props (createBaseMock a dflt d)) (PStr s))) by by eexists.
  apply createBaseMock_keys in Hs. unfold surface_names in Hs. simpl in Hs.
  repeat (apply elem_of_cons in Hs as [->|Hs]; [by vm_compute in Hp|]).
  by apply elem_of_nil in Hs.
Qed.

(** A chain of member reads that starts on a stand-in nothing has touched. *)
Lemma walk_from_fresh path :
  ∀ a d (h : Heap),
    h !! a = Some (createBaseMock a (VNested d) d) →
    (d ≤ MAX_DEPTH)%Z →
    Forall (λ s, passthrough (PStr s) = false ∧ language_member (PStr s) = false) path →
    ∃ r h', walk (VMock a) path h = Some (r, h') ∧
      ((d + Z.of_nat (length path) ≤ MAX_DEPTH)%Z →
         ∃ c, r = Return (VMock c) ∧
              h' !! c = Some (createBaseMock c (VNested (d + Z.of_nat (length path)))
                                (d + Z.of_nat (length path)))) ∧
      ((d + Z.of_nat (length path) = MAX_DEPTH + 1)%Z → r = Return VUndef) ∧
      ((d + Z.of_nat (length path) > MAX_DEPTH + 1)%Z → ∃ msg, r = Throw (VTypeError msg)).
Proof.
  induction path as [|s path IH]; intros a d h Ha Hd Hok.
  - exists (Return (VMock a)), h. split; [done|]. simpl length.
    rewrite Z.add_0_r. split; [|split; intros; lia].
    intros _. by exists a.
  - inversion Hok as [|? ? [Hp Hl] Hok']; subst.
    assert (Hlt : (a < length h)%nat) by by eapply lookup_lt_Some.
    cbn [walk]. unfold bind. unfold get_prop.
    destruct (decide (d < MAX_DEPTH)%Z) as [Hlt10|Hge].
    + rewrite (handler_get_generates a s h _ Ha Hp Hl (nonpassthrough_fresh _ _ _ s Hp))
        by done.
      cbn [depth createBaseMock].
      set (child := createBaseMock (length h) (VNested (d + 1)) (d + 1)).
      set (h1 := <[a := _]> (h ++ [child])).
      assert (Hc : h1 !! length h = Some child).
      { unfold h1. rewrite list_lookup_insert_ne by lia. by apply list_lookup_middle. }
      destruct (IH (length h) (d + 1)%Z h1 Hc ltac:(lia) Hok') as (r & h' & Hw & H1 & H2 & H3).
      exists r, h'. split; [done|].
      replace (d + Z.of_nat (length (s :: path)))%Z
        with (d + 1 + Z.of_nat (length path))%Z by (simpl length; lia).
      done.
    + assert (d = MAX_DEPTH) as -> by lia.
      unfold handler_get, target_get, target_set. rewrite Ha.
      cbn [mbind option_bind]. rewrite Hl. cbn [mbind option_bind].
      rewrite nonpassthrough_fresh by done. rewrite Hp.
      cbn [default is_symbol is_undefined negb depth createBaseMock createMock].
      unfold createMock. change (MAX_DEPTH <? MAX_DEPTH + 1)%Z with true.
      cbv beta iota zeta. rewrite walk_undefined.
      destruct path as [|s' path]; eexists _, _; (split; [reflexivity|]);
        simpl length; unfold MAX_DEPTH; (split; [intros; lia|]);
        split; intros; try lia; eauto.
Qed.

(** X15. The depth bound along a chain of member reads from a new root
    (index.ts 119-124, 157-160): following [k] members that the [get] trap
    does not hand to the target, the chain ends on a stand-in of depth [k]
    as long as [k <= 10]; it ends on [undefined] for [k = 11]; and for
    [k > 11] it throws a TypeError, the read after the placeholder being a
    read on [undefined]. *)
Theorem member_chain_ends_at_max_depth path (h : Heap) :
  Forall (λ s, passthrough (PStr s) = false ∧ language_member (PStr s) = false) path →
  ∃ r h', walk (createMock 0 h).1 path (createMock 0 h).2 = Some (r, h') ∧
    ((length path ≤ 10)%nat →
       ∃ c ndc, r = Return (VMock c) ∧ h' !! c = Some ndc ∧
                depth ndc = Z.of_nat (length path)) ∧
    ((length path = 11)%nat → r = Return VUndef) ∧
    ((length path > 11)%nat → ∃ msg, r = Throw (VTypeError msg)).
Proof.
  intros Hok. unfold createMock. simpl.
  destruct (walk_from_fresh path (length h) 0%Z
              (h ++ [createBaseMock (length h) (VNested 0) 0]))
    as (r & h' & Hw & H1 & H2 & H3); [by apply list_lookup_middle | done | done |].
  exists r, h'. split; [done|]. unfold MAX_DEPTH in *. split; [|split].
  - intros Hk. destruct H1 as (c & -> & Hc); [lia|]. by eexists c, _.
  - intros Hk. apply H2. lia.
  - intros Hk. apply H3. lia.
Qed.

(** ** A function given as a default *)

Section DefaultsMore.

Variable ftab : nat → list Value → Prog.

(** The heap createMockWithDefaults leaves for one function-valued entry
    under a name the [get] trap does not hand to the target. *)
Lemma single_function_default n key f (h : Heap) :
  is_function f = true →
  passthrough (PStr key) = false → language_member (PStr key) = false →
  createMockWithDefaults ftab (S n) (Some [(key, f)]) h
  = Some (Return (VMock (length h)),
          <[S (length h) := set_impl f (createBaseMock (S (length h)) (VNested 1) 1)]>
            (<[length h := set_props (λ ps, assoc_set ps (PStr key) (VMock (S (length h))))
                             (createBaseMock (length h) (VNested 0) 0)]>
               ((h ++ [createBaseMock (length h) (VNested 0) 0])
                ++ [createBaseMock (S (length h)) (VNested 1) 1]))).
Proof.
  intros Hf Hp Hl.
  set (root := createBaseMock (length h) (VNested 0) 0).
  set (child := createBaseMock (S (length h)) (VNested 1) 1).
  assert (Hlen : length (h ++ [root]) = S (length h)) by (rewrite length_app; simpl; lia).
  assert (Hr : (h ++ [root]) !! length h = Some root) by by apply list_lookup_middle.
  assert (Hg : handler_get (length h) (PStr key) (h ++ [root])
               = Some (VMock (S (length h)),
                       <[length h := set_props (λ ps, assoc_set ps (PStr key)
                                                  (VMock (S (length h)))) root]>
                         ((h ++ [root]) ++ [child]))).
  { rewrite (handler_get_generates (length h) key (h ++ [root]) root Hr Hp Hl
               (nonpassthrough_fresh _ _ _ key Hp) ltac:(done)).
    by rewrite Hlen. }
  unfold createMockWithDefaults, createMock. change (MAX_DEPTH <? 0)%Z with false.
  cbv iota beta zeta. fold root. cbn [for_each]. unfold default_entry.
  rewrite typeof_function, Hf. unfold bind at 1. unfold bind at 1. unfold bind at 1.
  unfold get_prop. rewrite Hg.
  rewrite (install_good ftab n (S (length h)) f _ child).
  - done.
  - rewrite list_lookup_insert_ne by lia. rewrite <- Hlen. by apply list_lookup_middle.
  - apply fresh_good_child.
Qed.

(** X16. A function given as the default of a member serves that member
    (index.ts 250-254), whatever the function does: after
    [createMockWithDefaults({key: f})], reading [key] gives a child stand-in
    with empty logs; an invocation of the child logs the call and chooses
    [f]; and when [f], applied to the arguments of the invocation in the
    heap with the call logged, ends with an outcome (the child's logs being
    [cs2] and [rs2] by then), the invocation ends with this very outcome and
    getCallInfo on the child reports the calls [cs2], the outcomes [rs2]
    followed by the record of this outcome, and this record as the last
    result. *)
Theorem default_function_serves_the_member n key f args (h : Heap) :
  is_function f = true →
  passthrough (PStr key) = false →
  language_member (PStr key) = false →
  ∃ h1 hb,
    createMockWithDefaults ftab (S n) (Some [(key, f)]) h
      = Some (Return (VMock (length h)), h1) ∧
    get_prop (VMock (length h)) (PStr key) h1 = Some (Return (VMock (S (length h))), h1) ∧
    log_at h1 (S (length h)) = Some ([], []) ∧
    begin_call (S (length h)) args h1 = Some (f, hb) ∧
    log_at hb (S (length h)) = Some ([VArr args], []) ∧
    ∀ o h2 cs2 rs2,
      call ftab n f args hb = Some (o, h2) →
      log_at h2 (S (length h)) = Some (cs2, rs2) →
      ∃ h3, call ftab (S n) (VMock (S (length h))) args h1 = Some (o, h3) ∧
            getCallInfo (VMock (S (length h))) h3
            = Some (Return (mkCallInfo (Z.of_nat (length cs2)) cs2
                              (rs2 ++ [result_entry o])
                              (last_or cs2 (VArr [])) (result_entry o)), h3).
Proof.
  intros Hf Hp Hl.
  set (root := createBaseMock (length h) (VNested 0) 0).
  set (child := createBaseMock (S (length h)) (VNested 1) 1).
  set (root' := set_props (λ ps, assoc_set ps (PStr key) (VMock (S (length h)))) root).
  set (h1 := <[S (length h) := set_impl f child]>
               (<[length h := root']> ((h ++ [root]) ++ [child]))).
  assert (Hr : h1 !! length h = Some root').
  { unfold h1. rewrite list_lookup_insert_ne by lia.
    apply list_lookup_insert_eq. rewrite !length_app. simpl. lia. }
  assert (Hc : h1 !! S (length h) = Some (set_impl f child)).
  { unfold h1. apply list_lookup_insert_eq. rewrite length_insert, !length_app. simpl. lia. }
  destruct (function_not_nullish f Hf) as [Hn Ht].
  destruct (begin_call_spec (S (length h)) args h1 (set_impl f child) [] [] Hc eq_refl)
    as (nd1 & Hb & Hl1 & _).
  assert (Hto : toCall_of (set_impl f child) = f) by done.
  rewrite Hto in Hb.
  exists h1, (<[S (length h) := nd1]> h1).
  split; [by apply single_function_default|]. split.
  { unfold get_prop, handler_get. rewrite Hr. cbn [mbind option_bind].
    unfold root'. rewrite (target_get_set root (PStr key) _ Hl). cbn [mbind option_bind].
    by rewrite Hp. }
  split; [unfold log_at; by rewrite Hc|]. split; [exact Hb|]. split.
  { by rewrite (log_at_insert h1 _ _ nd1 Hc). }
  intros o h2 cs2 rs2 Hrun Hlog2.
  destruct (fn_finish (call ftab n) (S (length h)) args h1 _ h2 f o cs2 rs2 Hb)
    as (nd3 & Hfn & Hl3 & _); [by rewrite Ht | done |].
  destruct (log_at_Some _ _ _ _ Hlog2) as (nd2 & Ha2 & _).
  exists (<[S (length h) := nd3]> h2). split; [exact Hfn|].
  rewrite (getCallInfo_of_log _ _ nd3 _ _ (lookup_insert_node h2 _ nd2 nd3 Ha2) Hl3).
  rewrite last_or_snoc by by destruct o. done.
Qed.

End DefaultsMore.

(** ** Clearing and overwriting the bookkeeping *)

(** X17. After mockClear (index.ts 67-71) the call history read by
    getCallInfo (index.ts 274-288) is the one of a recorder never called:
    count 0, empty logs, and the two fall-back values [[]] and
    [{type: 'return', value: undefined}] for the last call and the last
    result. *)
Theorem call_history_after_mockClear
    (ftab : nat → list Value → Prog) n a (h : Heap) nd cs rs :
  h !! a = Some nd →
  node_log nd = Some (cs, rs) →
  ∃ h', call ftab (S n) (VMethod a MClear) [] h = Some (Return (VBase a), h') ∧
        getCallInfo (VMock a) h'
        = Some (Return (mkCallInfo 0 [] [] (VArr [])
                          (VObj [("type", VStr "return"); ("value", VUndef)])), h').
Proof.
  intros Ha Hlog.
  destruct (node_log_mock_object nd cs rs Hlog) as (fs & Hm & _ & _).
  eexists. split; [by apply call_mockClear|].
  erewrite getCallInfo_of_log;
    [ | apply list_lookup_insert_eq; by eapply lookup_lt_Some | apply cleared_node_log ].
  done.
Qed.

(** X18. The [set] trap (index.ts 164-167) does not protect the names the
    [get] trap hands to the recorder (index.ts 130-143): a write under such
    a name replaces the recorder's own member, the next read returns the
    written value whatever it is, and after [mock] has been overwritten with
    something that is not an object the stand-in no longer passes isMock and
    getCallInfo rejects it. *)
Theorem surface_write_replaces_recorder_member a s w (h h2 : Heap) :
  passthrough (PStr s) = true →
  handler_set a (PStr s) w h = Some h2 →
  handler_get a (PStr s) h2 = Some (w, h2) ∧
  (s = "mock" → is_object w = false →
   isMock (VMock a) h2 = Some (Return false, h2) ∧
   getCallInfo (VMock a) h2
   = Some (Throw (VTypeError "Argument must be a mock function"), h2)).
Proof.
  intros Hp Hs. unfold handler_set, target_set in Hs.
  destruct (h !! a) as [nd|] eqn:Ha; [|discriminate]. cbn [mbind option_bind] in Hs.
  destruct (language_member (PStr s)) eqn:Hl; [discriminate|].
  cbn [mbind option_bind] in Hs. injection Hs as <-.
  set (nd' := set_props (λ ps, assoc_set ps (PStr s) w) nd).
  assert (Ha' : <[a := nd']> h !! a = Some nd')
    by (apply list_lookup_insert_eq; by eapply lookup_lt_Some).
  assert (Hg : handler_get a (PStr s) (<[a := nd']> h) = Some (w, <[a := nd']> h)).
  { unfold handler_get. rewrite Ha'. cbn [mbind option_bind].
    unfold nd'. rewrite (target_get_set nd (PStr s) w Hl). cbn [mbind option_bind].
    by rewrite Hp. }
  split; [done|]. intros -> Hw.
  assert (Hm : isMock (VMock a) (<[a := nd']> h) = Some (Return false, <[a := nd']> h)).
  { unfold isMock. rewrite typeof_function. cbn [is_function negb]. unfold bind at 1. unfold has_prop. cbn [is_function orb negb].
    change (language_member (PStr "mock")) with false. cbv beta iota. rewrite Ha'.
    cbn [mbind option_bind]. unfold nd' at 1. cbn [props set_props].
    case_bool_decide as Hb;
      [|exfalso; apply Hb; rewrite assoc_get_set_eq; by eexists].
    cbn [negb].
    unfold bind at 1. unfold get_prop. rewrite Hg.
    by rewrite typeof_object, Hw. }
  split; [done|]. unfold getCallInfo, bind. by rewrite Hm.
Qed.

(** ** Concrete runs *)

Lemma queued_behaviors_serve_in_order_witness :
  (∀ i f, onceQueue queued_node !! i = Some f →
     served_by example_ftab 1 0 queued_heap [[VStr "a"]; [VStr "b"]; [VStr "c"]]
       [Return (VStr "first"); Return (VStr "second"); Return (VStr "always")] i f) ∧
  (∀ i, (length (onceQueue queued_node) ≤ i < length [[VStr "a"]; [VStr "b"]; [VStr "c"]])%nat →
     served_by example_ftab 1 0 queued_heap [[VStr "a"]; [VStr "b"]; [VStr "c"]]
       [Return (VStr "first"); Return (VStr "second"); Return (VStr "always")] i
       (impl queued_node)) ∧
  ∃ nd', queued_final_heap !! 0%nat = Some nd' ∧
         onceQueue nd' = [] ∧ impl nd' = impl queued_node ∧
         node_log nd'
           = Some ([] ++ (VArr <$> [[VStr "a"]; [VStr "b"]; [VStr "c"]]),
                   [] ++ (result_entry <$> [Return (VStr "first"); Return (VStr "second");
                                            Return (VStr "always")])) ∧
         length [Return (VStr "first"); Return (VStr "second"); Return (VStr "always")]
         = length [[VStr "a"]; [VStr "b"]; [VStr "c"]].
Proof.
  apply (queued_behaviors_serve_in_order example_ftab 1 0 queued_heap queued_node [] []
           [[VStr "a"]; [VStr "b"]; [VStr "c"]]
           [Return (VStr "first"); Return (VStr "second"); Return (VStr "always")]
           queued_final_heap).
  - reflexivity.
  - reflexivity.
  - repeat constructor.
  - repeat constructor; apply constant_quiet; intros;
      [by exists (Return (VStr "first")) | by exists (Return (VStr "second"))].
  - apply constant_quiet. intros. by exists (Return (VStr "always")).
  - simpl. lia.
  - vm_compute. reflexivity.
Defined.

Lemma return_value_once_then_always_witness :
  ∃ h1 h2 h',
    call example_ftab 2 (VMethod 0 MReturnValueOnce) [VStr "x"] (recorder_heap (VFun 5 []))
      = Some (Return (VBase 0), h1) ∧
    call example_ftab 2 (VMethod 0 MReturnValue) [VStr "y"] h1 = Some (Return (VBase 0), h2) ∧
    invoke_all example_ftab 2 0 ([VStr "a"] :: [[VStr "b"]; [VStr "c"]]) h2
      = Some (Return (VStr "x") :: replicate (length [[VStr "b"]; [VStr "c"]]) (Return (VStr "y")), h') ∧
    log_at h' 0
      = Some ([] ++ (VArr <$> [VStr "a"] :: [[VStr "b"]; [VStr "c"]]),
              [] ++ (result_entry <$> Return (VStr "x")
                                      :: replicate (length [[VStr "b"]; [VStr "c"]]) (Return (VStr "y")))).
Proof.
  apply (return_value_once_then_always example_ftab 0 0 (recorder_heap (VFun 5 []))
           (createBaseMock 0 (VFun 5 []) 0) [] [] (VStr "x") (VStr "y") [VStr "a"] [[VStr "b"]; [VStr "c"]]).
  - reflexivity.
  - reflexivity.
  - vm_compute. by repeat split.
  - reflexivity.
Defined.

Lemma rejected_value_is_returned_not_thrown_witness :
  (∃ h1 h2,
     call example_ftab 2 (VMethod 0 MRejectedValue) [VMock 0] (recorder_heap (VFun 5 []))
       = Some (Return (VBase 0), h1) ∧
     call example_ftab 2 (VMock 0) [] h1 = Some (Return (VPromise false (VMock 0)), h2) ∧
     log_at h2 0
       = Some ([] ++ [VArr []],
               [] ++ [VObj [("type", VStr "return");
                            ("value", VPromise false (VMock 0))]])) ∧
  (∃ h1 h2,
     call example_ftab 2 (VMethod 0 MResolvedValue) [VStr "v"] (recorder_heap (VFun 5 []))
       = Some (Return (VBase 0), h1) ∧
     call example_ftab 2 (VMock 0) [] h1 = Some (Return (promise_of (VStr "v")), h2) ∧
     log_at h2 0
       = Some ([] ++ [VArr []],
               [] ++ [VObj [("type", VStr "return");
                            ("value", promise_of (VStr "v"))]])).
Proof.
  split.
  - apply (rejected_value_is_returned_not_thrown example_ftab 0 0 (recorder_heap (VFun 5 []))
             (createBaseMock 0 (VFun 5 []) 0) [] [] (VMock 0) []);
      [reflexivity | reflexivity | vm_compute; by repeat split | reflexivity].
  - apply (rejected_value_is_returned_not_thrown example_ftab 0 0 (recorder_heap (VFun 5 []))
             (createBaseMock 0 (VFun 5 []) 0) [] [] (VStr "v") []);
      [reflexivity | reflexivity | vm_compute; by repeat split | reflexivity | reflexivity].
Defined.

Lemma unconfigured_call_returns_new_standin_each_time_witness :
  ∃ h', invoke_all example_ftab 2 0 [[VStr "b"]; [VStr "c"]] fresh_heap
          = Some ((λ i, Return (VMock i)) <$> seq (length fresh_heap) (length [[VStr "b"]; [VStr "c"]]), h') ∧
        length h' = (length fresh_heap + length [[VStr "b"]; [VStr "c"]])%nat ∧
        (∀ b ndb, b ≠ 0%nat → fresh_heap !! b = Some ndb → h' !! b = Some ndb) ∧
        (∀ i, (i < length [[VStr "b"]; [VStr "c"]])%nat →
              h' !! (length fresh_heap + i)%nat
              = Some (createBaseMock (length fresh_heap + i) (VNested (0 + 1)) (0 + 1))).
Proof.
  apply (unconfigured_call_returns_new_standin_each_time example_ftab 0 0 0 [[VStr "b"]; [VStr "c"]]
           fresh_heap fresh_node [] []).
  - reflexivity.
  - reflexivity.
  - reflexivity.
  - reflexivity.
  - reflexivity.
Defined.

Lemma invocation_leaves_other_recorders_witness :
  two_called_heap !! 0%nat = two_heap !! 0%nat.
Proof.
  apply (invocation_leaves_other_recorders example_ftab 1 0 1 [] two_heap two_called_heap
           (createBaseMock 1 (VNested 0) 0) (Return (VMock 2))).
  - lia.
  - by eexists.
  - reflexivity.
  - apply nested_quiet.
  - vm_compute. reflexivity.
Defined.

Lemma call_history_after_run_witness :
  ∃ os0 o,
    [Return (VMock 1); Return (VMock 2)] = os0 ++ [o] ∧
    length os0 = length [[VStr "1"]] ∧
    getCallInfo (VMock 0) twice_called_heap
    = Some (Return (mkCallInfo (Z.of_nat (S (length [[VStr "1"]])))
                      (VArr <$> [[VStr "1"]] ++ [[VStr "2"]])
                      (result_entry <$> os0 ++ [o])
                      (VArr [VStr "2"]) (result_entry o)), twice_called_heap).
Proof.
  apply (call_history_after_run example_ftab 1 0 fresh_heap twice_called_heap fresh_node
           [[VStr "1"]] [VStr "2"] [Return (VMock 1); Return (VMock 2)]).
  - reflexivity.
  - reflexivity.
  - apply nested_quiet.
  - constructor.
  - vm_compute. reflexivity.
Defined.

Lemma configuration_returns_the_unproxied_recorder_witness :
  ∃ h', call example_ftab 1 (VMethod 0 MImplementation) [VFun 3 []] fresh_heap
          = Some (Return (VBase 0), h') ∧
        get_prop (VBase 0) (PStr "getUser") h' = Some (Return VUndef, h') ∧
        ∃ h'', get_prop (VMock 0) (PStr "getUser") h'
               = Some (Return (VMock (length h')), h'').
Proof.
  apply (configuration_returns_the_unproxied_recorder example_ftab 0 0 (VFun 3 [])
           fresh_heap fresh_node "getUser").
  - reflexivity.
  - reflexivity.
  - reflexivity.
  - reflexivity.
  - reflexivity.
Defined.

Lemma generated_child_is_a_fresh_recorder_witness :
  ∃ c h1 ndc nd',
    handler_get 0 (PStr "getUser") fresh_heap = Some (VMock c, h1) ∧
    c ≠ 0%nat ∧ fresh_heap !! c = None ∧
    h1 !! c = Some ndc ∧ depth ndc = (depth fresh_node + 1)%Z ∧
    isMock (VMock c) h1 = Some (Return true, h1) ∧
    log_at h1 c = Some ([], []) ∧
    h1 !! 0%nat = Some nd' ∧ node_log nd' = node_log fresh_node ∧
    impl nd' = impl fresh_node ∧ onceQueue nd' = onceQueue fresh_node.
Proof.
  apply (generated_child_is_a_fresh_recorder 0 "getUser" fresh_heap fresh_node).
  - reflexivity.
  - reflexivity.
  - reflexivity.
  - reflexivity.
  - reflexivity.
Defined.

Lemma write_leaves_other_members_witness :
  handler_get 0 (PStr "id") written_heap = Some (VStr "1", written_heap) ∧
  handler_get 0 (PStr "id") rewritten_heap = Some (VStr "1", rewritten_heap) ∧
  fst <$> handler_get 0 (PStr "id") rewritten_heap
  = fst <$> handler_get 0 (PStr "id") written_heap.
Proof.
  split; [vm_compute; reflexivity|]. split; [vm_compute; reflexivity|].
  apply (write_leaves_other_members 0 0 (PStr "email") (PStr "id") (VStr "x")
           written_heap rewritten_heap).
  - vm_compute. reflexivity.
  - discriminate.
Defined.

Lemma descriptor_follows_the_cache_witness :
  (assoc_get (props fresh_node) (PStr "getUser") = None →
   handler_getOwnPropertyDescriptor 0 (PStr "getUser") fresh_heap = Some VUndef) ∧
  (∀ v h1, handler_get 0 (PStr "getUser") fresh_heap = Some (v, h1) →
     handler_getOwnPropertyDescriptor 0 (PStr "getUser") h1
     = Some (VObj [("configurable", VBool true); ("enumerable", VBool true);
                   ("value", v)])).
Proof.
  apply (descriptor_follows_the_cache 0 "getUser" fresh_heap fresh_node).
  - reflexivity.
  - reflexivity.
  - reflexivity.
Defined.

Lemma member_chain_ends_at_max_depth_witness :
  ∃ r h', walk (createMock 0 []).1 ["user"; "profile"] (createMock 0 []).2 = Some (r, h') ∧
    ((length ["user"; "profile"] ≤ 10)%nat →
       ∃ c ndc, r = Return (VMock c) ∧ h' !! c = Some ndc ∧
                depth ndc = Z.of_nat (length ["user"; "profile"])) ∧
    ((length ["user"; "profile"] = 11)%nat → r = Return VUndef) ∧
    ((length ["user"; "profile"] > 11)%nat → ∃ msg, r = Throw (VTypeError msg)).
Proof.
  apply (member_chain_ends_at_max_depth ["user"; "profile"] []).
  repeat constructor.
Defined.

Lemma default_function_serves_the_member_witness :
  (∃ h1 h3,
     createMockWithDefaults example_ftab 2 (Some [("getUser", VFun 3 [])]) []
       = Some (Return (VMock 0), h1) ∧
     call example_ftab 2 (VMock 1) [VStr "1"] h1 = Some (Return (VStr "first"), h3) ∧
     getCallInfo (VMock 1) h3
       = Some (Return (mkCallInfo 1 [VArr [VStr "1"]]
                         [VObj [("type", VStr "return"); ("value", VStr "first")]]
                         (VArr [VStr "1"])
                         (VObj [("type", VStr "return"); ("value", VStr "first")])), h3)) ∧
  ∃ h1 hb,
    createMockWithDefaults example_ftab 2 (Some [("getUser", VFun 3 [])]) []
      = Some (Return (VMock (length (@nil Node))), h1) ∧
    get_prop (VMock (length (@nil Node))) (PStr "getUser") h1
      = Some (Return (VMock (S (length (@nil Node)))), h1) ∧
    log_at h1 (S (length (@nil Node))) = Some ([], []) ∧
    begin_call (S (length (@nil Node))) [VStr "1"] h1 = Some (VFun 3 [], hb) ∧
    log_at hb (S (length (@nil Node))) = Some ([VArr [VStr "1"]], []) ∧
    ∀ o h2 cs2 rs2,
      call example_ftab 1 (VFun 3 []) [VStr "1"] hb = Some (o, h2) →
      log_at h2 (S (length (@nil Node))) = Some (cs2, rs2) →
      ∃ h3, call example_ftab 2 (VMock (S (length (@nil Node)))) [VStr "1"] h1
              = Some (o, h3) ∧
            getCallInfo (VMock (S (length (@nil Node)))) h3
            = Some (Return (mkCallInfo (Z.of_nat (length cs2)) cs2
                              (rs2 ++ [result_entry o])
                              (last_or cs2 (VArr [])) (result_entry o)), h3).
Proof.
  split.
  { eexists _, _. split; [vm_compute; reflexivity|].
    split; [vm_compute; reflexivity|]. vm_compute. reflexivity. }
  apply (default_function_serves_the_member example_ftab 1 "getUser" (VFun 3 []) [VStr "1"] []).
  - reflexivity.
  - reflexivity.
  - reflexivity.
Defined.

Lemma call_history_after_mockClear_witness :
  ∃ h', call example_ftab 1 (VMethod 0 MClear) [] called_heap = Some (Return (VBase 0), h') ∧
        getCallInfo (VMock 0) h'
        = Some (Return (mkCallInfo 0 [] [] (VArr [])
                          (VObj [("type", VStr "return"); ("value", VUndef)])), h').
Proof.
  apply (call_history_after_mockClear example_ftab 0 0 called_heap called_node
           [VArr [VStr "1"]] [result_entry (Return (VMock 1))]).
  - vm_compute. reflexivity.
  - vm_compute. reflexivity.
Defined.

Lemma surface_write_replaces_recorder_member_witness :
  handler_get 0 (PStr "mock") unlogged_heap = Some (VStr "1", unlogged_heap) ∧
  ("mock" = "mock" → is_object (VStr "1") = false →
   isMock (VMock 0) unlogged_heap = Some (Return false, unlogged_heap) ∧
   getCallInfo (VMock 0) unlogged_heap
   = Some (Throw (VTypeError "Argument must be a mock function"), unlogged_heap)).
Proof.
  apply (surface_write_replaces_recorder_member 0 "mock" (VStr "1") fresh_heap unlogged_heap).
  - reflexivity.
  - vm_compute. reflexivity.
Defined.
